(** * ChatGPT-NW: the request layer (app/requests.ts in its four revisions)

    The repository carries four revisions of the same module:
    - [src/unnamed/part_003]: local tokenizer, token counts on [onMessage];
    - [src/unnamed/part_000]: summary substitution gated by the summary level;
    - [src/unnamed/part_002]: [isMessageInSummaryMode], [getMessageOrSummary],
      threshold-gated [summarizeMessageIncrementally] that mutates in place;
    - [src/unnamed/part_001]: substitution gated by [useSummary],
      [summarizeMessageIncrementally] returning a [SummaryResponse],
      [summarizeMessage] folding it into the session.
    [ControllerPool] and the read loop of [requestChatStream] are the same
    text in all four (the loop of part_003 also passes token counts). *)

From stdpp Require Import base functions gmap list sorting strings pretty.
From Stdlib Require Import ZArith QArith Qround.

Local Close Scope Q_scope.
Local Open Scope string_scope.
Local Open Scope list_scope.

(** ** JavaScript values shared by all revisions *)

(** Errors the code creates or receives.  [NewError msg] is
    [new Error(msg)]; [AbortError] is the DOMException with which a pending
    [fetch] or [read] rejects once its signal is aborted; [Failure] is any
    other rejection reason delivered by the platform. *)
Inductive Error :=
| NewError (message : string)
| AbortError
| Failure (reason : string).

(** Completion of a JavaScript call: it returns or it throws. *)
Inductive Completion (A : Type) :=
| Normal (a : A)
| Throw (e : Error).
Arguments Normal {A} a.
Arguments Throw {A} e.

(** A settled promise. *)
Inductive Promise (A : Type) :=
| Resolved (a : A)
| Rejected (e : Error).
Arguments Resolved {A} a.
Arguments Rejected {A} e.

(** [p.then(f)] for a callback that does not throw. *)
Definition then_ {A B} (p : Promise A) (f : A → B) : Promise B :=
  match p with
  | Resolved a => Resolved (f a)
  | Rejected e => Rejected e
  end.

(** An [AbortController] object, by identity. *)
Definition AbortController := nat.

(** ** ControllerPool (identical in part_000 .. part_003) *)

Module ControllerPool.

(** The pool object together with the effect its methods have on the
    outside world: [controllers] is the property map
    [this.controllers]; [aborts] lists, oldest first, the controllers on
    which [abort()] has been invoked. *)
Record State := {
  controllers : gmap string AbortController;
  aborts : list AbortController
}.

Definition empty : State := {| controllers := ∅; aborts := [] |}.

(** [key(sessionIndex, messageIndex)]: the template literal
    [`${sessionIndex},${messageIndex}`], for integer indices. *)
Definition key (sessionIndex messageIndex : Z) : string :=
  pretty sessionIndex +:+ "," +:+ pretty messageIndex.

(** [addController]: [this.controllers[key] = controller; return key]. *)
Definition addController (sessionIndex messageId : Z)
    (controller : AbortController) (st : State) : string * State :=
  let k := key sessionIndex messageId in
  (k, {| controllers := <[k := controller]> (controllers st);
         aborts := aborts st |}).

(** [v.abort()] on a controller object. *)
Definition abort (v : AbortController) (st : State) : State :=
  {| controllers := controllers st; aborts := aborts st ++ [v] |}.

(** [controller?.abort()]: the optional call does nothing on
    [undefined]. *)
Definition abort_optional (controller : option AbortController)
    (st : State) : Completion State :=
  match controller with
  | Some v => Normal (abort v st)
  | None => Normal st
  end.

(** [stop]. *)
Definition stop (sessionIndex messageId : Z) (st : State)
    : Completion State :=
  let k := key sessionIndex messageId in
  let controller := controllers st !! k in
  abort_optional controller st.

(** [Object.values(this.controllers)]. *)
Definition values (st : State) : list AbortController :=
  (map_to_list (controllers st)).*2.

(** [stopAll]: [abort()] on every registered controller, in the order in
    which the map enumerates them. *)
Definition stopAll (st : State) : State :=
  foldl (λ s v, abort v s) st (values st).

(** [hasPending]: [Object.values(this.controllers).length > 0]. *)
Definition hasPending (st : State) : bool :=
  bool_decide (0 < length (values st)).

(** [remove]: [delete this.controllers[key]]. *)
Definition remove (sessionIndex messageId : Z) (st : State) : State :=
  {| controllers := delete (key sessionIndex messageId) (controllers st);
     aborts := aborts st |}.

End ControllerPool.

(** ** The data model of ./store, ./constant and ./locales

    These modules are imported by the request layer and are not part of the
    sources at hand; the records carry the properties the request layer
    reads or writes. *)

(** [Message.role]: ["system" | "user" | "assistant"]. *)
Inductive Role := system | user | assistant.

Global Instance Role_eq_dec : EqDecision Role.
Proof. solve_decision. Defined.

(** [SummaryLevel]: the request layer only tests for [Incremental]; the
    other enumerators are told apart by a tag. *)
Inductive SummaryLevel := Incremental | OtherLevel (tag : nat).

Global Instance SummaryLevel_eq_dec : EqDecision SummaryLevel.
Proof. solve_decision. Defined.

(** A [Message] object.  Optional properties are [option]s: [None] is
    [undefined]. *)
Record Message := {
  id : option Z;
  role : Role;
  content : string;
  summary : option string;
  useSummary : option bool;
  nTokens : option nat;
  nSummaryTokens : option nat;
  date : string;
  hidden : option bool
}.

(** The object literal [{ role, content, date }]. *)
Definition plainMessage (r : Role) (c d : string) : Message :=
  {| id := None; role := r; content := c; summary := None;
     useSummary := None; nTokens := None; nSummaryTokens := None;
     date := d; hidden := None |}.

(** JavaScript truthiness of an optional string and of an optional
    boolean. *)
Definition truthy_string (s : option string) : bool :=
  match s with
  | Some s => negb (String.eqb s "")
  | None => false
  end.

Definition truthy_bool (b : option bool) : bool := default false b.

(** [ModelConfig]: the properties that take part in the object spread are
    optional, so that an overlay can leave a default untouched. *)
Record ModelConfig := {
  model : option string;
  temperature : option Q;
  presence_penalty : option Q;
  summaryLevel : SummaryLevel;
  compressMessageLengthThreshold : nat
}.

(** The spread [{ ...a, ...b }]: a property present in [b] wins. *)
Definition spread (a b : ModelConfig) : ModelConfig :=
  {| model := from_option Some (model a) (model b);
     temperature := from_option Some (temperature a) (temperature b);
     presence_penalty :=
       from_option Some (presence_penalty a) (presence_penalty b);
     summaryLevel := summaryLevel b;
     compressMessageLengthThreshold := compressMessageLengthThreshold b |}.

(** Message objects live in a heap and are referred to by address, so that
    [indexOf] compares identities and an assignment to a property is seen
    through every reference. *)
Abbreviation Loc := nat (only parsing).
Abbreviation Heap := (Loc → Message) (only parsing).

Record Mask := {
  modelConfig : ModelConfig;
  context : list Loc
}.

Record ChatSession := {
  mask : Mask;
  messages : list Loc
}.

(** [array.indexOf(x)] on object references; [None] stands for -1. *)
Fixpoint indexOf (l : list Loc) (x : Loc) : option nat :=
  match l with
  | [] => None
  | y :: l' => if decide (y = x) then Some 0%nat else S <$> indexOf l' x
  end.

(** [INCREMENTAL_SUMMARY_PREFIX] of ./constant. *)
Class Constant := { INCREMENTAL_SUMMARY_PREFIX : string }.

(** [Locale.Store.Prompt.SummarizeIncremental] of ./locales. *)
Class Locale := { SummarizeIncremental : string }.

(** The wire format of ./api/openai/typing. *)
Module ChatRequest.
Record Msg := { role : Role; content : string }.
Record t := {
  messages : list Msg;
  stream : option bool;
  model : option string;
  temperature : option Q;
  presence_penalty : option Q
}.
End ChatRequest.

Module ChatResponse.
Record Usage := {
  prompt_tokens : option nat;
  completion_tokens : option nat
}.
Record ChoiceMessage := { content : option string }.
Record Choice := { message : option ChoiceMessage }.
Record t := {
  choices : option (list Choice);
  usage : option Usage
}.

(** [response?.choices?.at(0)?.message?.content]. *)
Definition first_content (response : option t) : option string :=
  r ← response; cs ← choices r; c ← cs !! 0%nat; m ← message c; content m.

(** [response?.usage?.completion_tokens]. *)
Definition usage_completion_tokens (response : option t) : option nat :=
  r ← response; u ← usage r; completion_tokens u.
End ChatResponse.

(** The [options] argument of [makeRequestParam]. *)
Record RequestOptions := {
  opt_stream : option bool;
  overrideModel : option string;
  overrideTemperature : option Q;
  overridePresencePenalty : option Q
}.

(** The part of [makeRequestParam] that all revisions share: the layered
    model configuration, then the explicit overrides. *)
Definition overrideConfig (options : option RequestOptions)
    (appConfig : ModelConfig) (session : ChatSession) : ModelConfig :=
  let modelConfig := spread appConfig (modelConfig (mask session)) in
  let modelConfig :=
    if truthy_string (options ≫= overrideModel)
    then {| model := options ≫= overrideModel;
            temperature := temperature modelConfig;
            presence_penalty := presence_penalty modelConfig;
            summaryLevel := summaryLevel modelConfig;
            compressMessageLengthThreshold :=
              compressMessageLengthThreshold modelConfig |}
    else modelConfig in
  let modelConfig :=
    match options ≫= overrideTemperature with
    | Some t => {| model := model modelConfig;
                   temperature := Some t;
                   presence_penalty := presence_penalty modelConfig;
                   summaryLevel := summaryLevel modelConfig;
                   compressMessageLengthThreshold :=
                     compressMessageLengthThreshold modelConfig |}
    | None => modelConfig
    end in
  match options ≫= overridePresencePenalty with
  | Some p => {| model := model modelConfig;
                 temperature := temperature modelConfig;
                 presence_penalty := Some p;
                 summaryLevel := summaryLevel modelConfig;
                 compressMessageLengthThreshold :=
                   compressMessageLengthThreshold modelConfig |}
  | None => modelConfig
  end.

Definition buildRequest (sendMessages : list ChatRequest.Msg)
    (options : option RequestOptions) (modelConfig : ModelConfig)
    : ChatRequest.t :=
  {| ChatRequest.messages := sendMessages;
     ChatRequest.stream := options ≫= opt_stream;
     ChatRequest.model := model modelConfig;
     ChatRequest.temperature := temperature modelConfig;
     ChatRequest.presence_penalty := presence_penalty modelConfig |}.

(** What the network does with a non-streaming request: [fetch] rejects,
    or the body fails to parse as JSON, or it parses. *)
Inductive FetchJson :=
| FetchJsonRejects (e : Error)
| JsonFails
| Json (r : ChatResponse.t).

(** The [options] argument of [requestChat] and [requestWithPrompt]. *)
Module ChatOptions.
Record t := {
  model : option string;
  temperature : option Q;
  presencePenalty : option Q
}.
End ChatOptions.

(** What a call to [requestChat] does: the request it sends and the
    promise it returns. *)
Record ChatCall := {
  request : ChatRequest.t;
  reply : Promise (option ChatResponse.t)
}.

(** The tail of [requestChat], the same in all revisions: the [await] of
    the fetch is outside the [try], the [await res.json()] inside it. *)
Definition awaitJson (net : FetchJson) : Promise (option ChatResponse.t) :=
  match net with
  | FetchJsonRejects e => Rejected e
  | JsonFails => Resolved None
  | Json r => Resolved (Some r)
  end.

(** The state of the two global stores the request layer reads:
    [useAppConfig.getState().modelConfig] and
    [useChatStore.getState().currentSession()]. *)
Record Stores := {
  appModelConfig : ModelConfig;
  currentSession : ChatSession
}.

(** ** The streaming transport: environment, events and effects *)

(** [encoding.encode] of the embedded tokenizer (part_003). *)
Class Tiktoken := { encode : string → list nat }.

(** A [TextDecoder] used with [{ stream: true }]: decoding a chunk yields
    text and the decoder state that carries an incomplete byte sequence
    over to the next chunk. *)
Class TextDecoder := {
  DecoderState : Type;
  newTextDecoder : DecoderState;
  decode : DecoderState → list Byte.byte → string * DecoderState
}.

(** The object a [reader.read()] promise resolves to.  A [Uint8Array] is
    truthy whatever its length, so [!content.value] holds exactly when
    [value] is [undefined]. *)
Record ReadResult := {
  value : option (list Byte.byte);
  done : bool
}.

(** What the response body does, read after read.  Each [read()] either
    resolves, or rejects, or is still pending when the idle timer armed
    just before it ([resTimeoutId], [TIME_OUT_MS] later) fires. *)
Inductive BodyScript :=
| Read (content : ReadResult) (rest : BodyScript)
| ReadRejects (e : Error)
| ReadStalls.

(** A [Response]: [body = None] is a null body, for which
    [res.body?.getReader()] is [undefined]. *)
Record Response := {
  status : nat;
  body : option BodyScript
}.

(** [res.ok]: the status is in the range 200-299. *)
Definition ok (res : Response) : bool :=
  (200 <=? status res)%nat && (status res <=? 299)%nat.

(** What [fetch] does: it resolves with a response, or rejects, or is
    still pending when the request timer ([reqTimeoutId]) fires. *)
Inductive FetchOutcome :=
| Responds (res : Response)
| FetchRejects (e : Error)
| FetchStalls.

(** The observable actions of [requestChatStream], in program order. *)
Inductive Event :=
| Fetch (req : ChatRequest.t)
| OnController
| OnMessage (message : string) (done : bool)
    (nPromptTokens nCompletionTokens : option nat)
| OnError (error : Error) (statusCode : option nat)
| Abort.

(** The timers armed with [setTimeout] and not yet cleared or fired: each
    with its identifier and the actions its callback performs when it
    fires.  The callbacks of this module arm no timer and throw nothing, so
    they are recorded by their actions.  A timer that is neither cleared
    nor fired while the function runs fires afterwards: its actions belong
    to the trace of the call. *)
Record Timers := {
  armed : list (nat * list Event);
  next_id : nat
}.

Definition noTimers : Timers := {| armed := []; next_id := 0 |}.

(** Code that performs actions, arms and clears timers, and then returns
    or throws. *)
Definition Eff (A : Type) : Type :=
  Timers → list Event * Timers * Completion A.

Global Instance Eff_ret : MRet Eff := λ A a ts, ([], ts, Normal a).

Global Instance Eff_bind : MBind Eff := λ A B f m ts,
  match m ts with
  | (evs, ts', Normal a) =>
      let '(evs', ts'', r) := f a ts' in (evs ++ evs', ts'', r)
  | (evs, ts', Throw e) => (evs, ts', Throw e)
  end.

Definition emit (ev : Event) : Eff () := λ ts, ([ev], ts, Normal ()).

Definition throw {A} (e : Error) : Eff A := λ ts, ([], ts, Throw e).

(** [try { m } catch (err) { handler err }]. *)
Definition try_catch {A} (m : Eff A) (handler : Error → Eff A) : Eff A :=
  λ ts,
  match m ts with
  | (evs, ts', Normal a) => (evs, ts', Normal a)
  | (evs, ts', Throw e) =>
      let '(evs', ts'', r) := handler e ts' in (evs ++ evs', ts'', r)
  end.

Definition when (b : bool) (m : Eff ()) : Eff () :=
  if b then m else mret ().

(** The actions of a callback. *)
Definition callback (m : Eff ()) : list Event := (m noTimers).1.1.

(** [setTimeout(callback, TIME_OUT_MS)]; it returns the timer's
    identifier. *)
Definition setTimeout (cb : list Event) : Eff nat := λ ts,
  ([],
   {| armed := armed ts ++ [(next_id ts, cb)]; next_id := S (next_id ts) |},
   Normal (next_id ts)).

Definition disarm (id : nat) (ts : Timers) : Timers :=
  {| armed := filter (λ tm, tm.1 ≠ id) (armed ts); next_id := next_id ts |}.

(** [clearTimeout(id)]. *)
Definition clearTimeout (id : nat) : Eff () := λ ts,
  ([], disarm id ts, Normal ()).

(** The timer [id] fires: its callback runs and the timer is spent. *)
Definition fires (id : nat) : Eff () := λ ts,
  (mjoin (snd <$> filter (λ tm, tm.1 = id) (armed ts)),
   disarm id ts, Normal ()).

(** The actions still to come once the code has run to its end: the
    timers left armed fire, oldest first (all have the same delay). *)
Definition late (ts : Timers) : list Event := mjoin (snd <$> armed ts).

(** The whole trace of a run started without timers. *)
Definition run {A} (m : Eff A) : list Event :=
  let '(evs, ts, _) := m noTimers in evs ++ late ts.

(** [await futureRes].  When the request timer fires it calls
    [controller.abort()], upon which the pending fetch rejects. *)
Definition awaitFetch (reqTimeoutId : nat) (net : FetchOutcome)
    : Eff Response :=
  match net with
  | Responds res => mret res
  | FetchRejects e => throw e
  | FetchStalls => fires reqTimeoutId;; throw AbortError
  end.

Definition newline : string := String (Ascii.ascii_of_nat 10) EmptyString.

(** The stream of part_000, part_001 and part_002 (no token counts). *)
Module Stream.
Section WithDecoder.
Context `{!TextDecoder}.

(** [finish]. *)
Definition finish (responseText : string) : Eff () :=
  emit (OnMessage responseText true None None);;
  emit Abort.

(** The [while (true)] loop; it returns the text accumulated when the
    loop is left.  Each round arms the idle timer, awaits the read and
    clears the timer.  When the read rejects, the [await] throws and the
    [clearTimeout] is not reached: the timer stays armed.  When the read
    stalls ([ReadStalls]) the timer fires while the read is pending; its
    [finish] calls [controller.abort()], which aborts the signal of the
    fetch, so the pending [read()] rejects and the [await] throws into
    the enclosing [try].  The callback reads [responseText] when it fires;
    the variable is assigned only after the [clearTimeout], so that is the
    text at the time the timer is armed. *)
Fixpoint readLoop (decoder : DecoderState) (responseText : string)
    (reader : BodyScript) : Eff string :=
  resTimeoutId ← setTimeout (callback (finish responseText));
  match reader with
  | ReadStalls => fires resTimeoutId;; throw AbortError
  | ReadRejects e => throw e
  | Read content rest =>
      clearTimeout resTimeoutId;;
      match value content with
      | None => mret responseText
      | Some v =>
          let '(text, decoder) := decode decoder v in
          let responseText := responseText +:+ text in
          emit (OnMessage responseText false None None);;
          if done content then mret responseText
          else readLoop decoder responseText rest
      end
  end.

(** The loop on [res.body?.getReader()]: without a reader,
    [reader?.read()] is [undefined]; the round arms and clears its timer
    and the loop is left. *)
Definition readAll (body : option BodyScript) : Eff string :=
  match body with
  | None =>
      resTimeoutId ← setTimeout (callback (finish ""));
      clearTimeout resTimeoutId;;
      mret ""
  | Some reader => readLoop newTextDecoder "" reader
  end.

(** [requestChatStream], given the request that [makeRequestParam]
    built.  [onController] tells whether the caller passed that optional
    callback. *)
Definition requestChatStream (req : ChatRequest.t) (onController : bool)
    (net : FetchOutcome) : list Event :=
  run (
    reqTimeoutId ← setTimeout (callback (emit Abort));
    try_catch
      (emit (Fetch req);;
       res ← awaitFetch reqTimeoutId net;
       clearTimeout reqTimeoutId;;
       if ok res then
         when onController (emit OnController);;
         responseText ← readAll (body res);
         finish responseText
       else if bool_decide (status res = 401%nat) then
         emit (OnError (NewError "Unauthorized") (Some (status res)))
       else
         emit (OnError (NewError "Stream Error") (Some (status res))))
      (λ err, emit (OnError err None))).

End WithDecoder.
End Stream.

(** The options with which [requestChatStream] calls [makeRequestParam]. *)
Definition streamOptions (overrideModel : option string) : RequestOptions :=
  {| opt_stream := Some true;
     overrideModel := overrideModel;
     overrideTemperature := None;
     overridePresencePenalty := None |}.

(** ** Helpers shared by the revisions: [shuffleWords] and the result of
    [requestWithPrompt] *)

Definition space : Ascii.ascii := Ascii.ascii_of_nat 32.

(** [input.split(" ")]: the pieces between the spaces; the empty string
    gives one empty piece. *)
Fixpoint split_space (input : string) : list string :=
  match input with
  | EmptyString => [""]
  | String c rest =>
      if Ascii.eqb c space then "" :: split_space rest
      else match split_space rest with
           | w :: ws => String c w :: ws
           | [] => [String c ""]
           end
  end.

(** [words.join(" ")]. *)
Definition join_space (words : list string) : string :=
  String.concat " " words.

(** [Math.floor(Math.random() * (i + 1))], for the value [r] that
    [Math.random()] returned (a number, taken as an exact rational). *)
Definition randomIndex (r : Q) (i : nat) : Z :=
  Qfloor (r * inject_Z (Z.of_nat (i + 1)))%Q.

(** [[words[i], words[j]] = [words[j], words[i]]].  The right-hand side
    is read first, then [words[i]] and [words[j]] are assigned in that
    order.  [None] stands for an index outside the array, which the loop
    below does not produce (a read there is [undefined]). *)
Definition swapWords (i : nat) (j : Z) (words : list string)
    : option (list string) :=
  if bool_decide (0 ≤ j)%Z then
    wj ← words !! Z.to_nat j;
    wi ← words !! i;
    Some (<[Z.to_nat j := wi]> (<[i := wj]> words))
  else None.

(** The loop [for (let i = words.length - 1; i > 0; i--)] of
    [shuffleWords], started at [i]; [random k] is the value of the [k]-th
    call of [Math.random()] from now on. *)
Fixpoint shuffleFrom (random : nat → Q) (i : nat) (words : list string)
    : option (list string) :=
  match i with
  | 0 => Some words
  | S i' =>
      let j := randomIndex (random 0) i in
      words ← swapWords i j words;
      shuffleFrom (λ k, random (S k)) i' words
  end.

(** [shuffleWords] (part_000 and part_002). *)
Definition shuffleWords (random : nat → Q) (input : string) : option string :=
  let words := split_space input in
  words ← shuffleFrom random (length words - 1) words;
  Some (join_space words).

(** JavaScript truthiness of an optional number. *)
Definition truthy_nat (n : option nat) : bool :=
  match n with
  | Some (S _) => true
  | _ => false
  end.

(** ** part_000 (and, with the same text, part_003): [makeRequestParam] *)

Module Part000.
Section WithConstants.
Context `{!Constant}.

(** The callback of [messages.map] in [makeRequestParam]. *)
Definition sendMessage (session : ChatSession) (v : Message)
    : ChatRequest.Msg :=
  {| ChatRequest.role := role v;
     ChatRequest.content :=
       if bool_decide (summaryLevel (modelConfig (mask session))
                       = Incremental)
          && truthy_string (summary v)
       then INCREMENTAL_SUMMARY_PREFIX +:+ " " +:+ default "" (summary v)
       else content v |}.

Definition makeRequestParam (stores : Stores) (messages : list Message)
    (options : option RequestOptions) : ChatRequest.t :=
  let session := currentSession stores in
  let sendMessages := sendMessage session <$> messages in
  buildRequest sendMessages options
    (overrideConfig options (appModelConfig stores) (currentSession stores)).

(** [requestChatStream]: the request is assembled with
    [stream: true], then streamed. *)
Definition requestChatStream `{!TextDecoder} (stores : Stores)
    (messages : list Message) (overrideModel : option string)
    (onController : bool) (net : FetchOutcome) : list Event :=
  Stream.requestChatStream
    (makeRequestParam stores messages (Some (streamOptions overrideModel)))
    onController net.

(** [requestChat] (part_000). *)
Definition requestChat (stores : Stores) (net : ChatRequest.t → FetchJson)
    (messages : list Message) (options : option ChatOptions.t) : ChatCall :=
  let req := makeRequestParam stores messages
    (Some {| overrideModel := options ≫= ChatOptions.model;
             overrideTemperature := options ≫= ChatOptions.temperature;
             overridePresencePenalty :=
               options ≫= ChatOptions.presencePenalty;
             opt_stream := Some false |}) in
  {| request := req; reply := awaitJson (net req) |}.

(** [requestWithPrompt]; [now] is [new Date().toLocaleString()]. *)
Definition requestWithPrompt (stores : Stores)
    (net : ChatRequest.t → FetchJson) (messages : list Message)
    (prompt now : string) (options : option ChatOptions.t)
    : ChatRequest.t * Promise string :=
  let messages := messages ++ [ plainMessage user prompt now ] in
  let call := requestChat stores net messages options in
  (request call,
   then_ (reply call) (λ res, default "" (ChatResponse.first_content res))).

End WithConstants.
End Part000.

(** ** part_001: substitution gated by [useSummary]; summaries returned as
    a [SummaryResponse] and folded in by [summarizeMessage] *)

Module SummaryResponse.
Record t := {
  messageId : option Z;
  summary : option string;
  nSummaryTokens : option nat
}.
End SummaryResponse.

Module Part001.
Section WithConstants.
Context `{!Constant} `{!Locale}.

(** The fixed persona message put in front of every request. *)
Definition persona : ChatRequest.Msg :=
  {| ChatRequest.role := system;
     ChatRequest.content := "You are a Swifty! Answer any questions and conduct conversations carefully and to the point, addressing an intelligent teenager. But whenever possible, also insert a relevant(-ish) Taylor Swift quote or trivia (don't make these up). Ideally, the (relative) relevance of the quote/trivia, or the way you introduce it, should be sly, funny or ridiculous. BTW, you're favorite album is 1989, but you can change your mind as to your favorite song. And you hate Olivia Rodrigo - be funny about that too. Good luck!" |}.

(** The callback of [messages.map] in [makeRequestParam].  The template
    literal prints an absent summary as the text [undefined]. *)
Definition baseMessage (message : Message) : ChatRequest.Msg :=
  {| ChatRequest.role := role message;
     ChatRequest.content :=
       if truthy_bool (useSummary message)
       then INCREMENTAL_SUMMARY_PREFIX +:+ " "
            +:+ default "undefined" (summary message)
       else content message |}.

Definition makeRequestParam (stores : Stores) (messages : list Message)
    (options : option RequestOptions) : ChatRequest.t :=
  let baseMessages := baseMessage <$> messages in
  let sendMessages := persona :: baseMessages in
  buildRequest sendMessages options
    (overrideConfig options (appModelConfig stores) (currentSession stores)).

Definition requestChat (stores : Stores) (net : ChatRequest.t → FetchJson)
    (messages : list Message) (options : option ChatOptions.t) : ChatCall :=
  let req := makeRequestParam stores messages
    (Some {| overrideModel := options ≫= ChatOptions.model;
             overrideTemperature := options ≫= ChatOptions.temperature;
             overridePresencePenalty :=
               options ≫= ChatOptions.presencePenalty;
             opt_stream := Some false |}) in
  {| request := req; reply := awaitJson (net req) |}.

(** The message list handed to [requestChat] by
    [summarizeMessageIncrementally], for a target found at index [i]. *)
Definition subConversation (h : Heap) (session : ChatSession)
    (message : Loc) (i : nat) : list Message :=
  let systemMessages :=
    filter (λ message, role message = system) (h <$> context (mask session)) in
  systemMessages
  ++ filter (λ message, truthy_bool (hidden message) = false)
       (h <$> take i (messages session))
  ++ [ plainMessage system SummarizeIncremental (date (h message));
       h message ].

(** What a call to [summarizeMessageIncrementally] does: the requests it
    sends and the promise it returns. *)
Record Summarizing := {
  sent : list ChatRequest.t;
  response : Promise SummaryResponse.t
}.

Definition summarizeMessageIncrementally (stores : Stores)
    (net : ChatRequest.t → FetchJson) (h : Heap)
    (message : Loc) (session : ChatSession) : Summarizing :=
  match indexOf (messages session) message with
  | None =>
      {| sent := [];
         response := Resolved
           {| SummaryResponse.messageId := id (h message);
              SummaryResponse.summary := None;
              SummaryResponse.nSummaryTokens := None |} |}
  | Some i =>
      let call := requestChat stores net
        (subConversation h session message i)
        (Some {| ChatOptions.model := Some "gpt-4";
                 ChatOptions.temperature := Some (7 # 10)%Q;
                 ChatOptions.presencePenalty := Some 0%Q |}) in
      {| sent := [request call];
         response := then_ (reply call) (λ response,
           {| SummaryResponse.messageId := id (h message);
              SummaryResponse.summary := ChatResponse.first_content response;
              SummaryResponse.nSummaryTokens :=
                ChatResponse.usage_completion_tokens response |}) |}
  end.

(** The [then] callback of [summarizeMessage], run on the heap. *)
Definition foldSummary (h : Heap) (session : ChatSession)
    (summaryResponse : SummaryResponse.t) : Heap :=
  if negb (truthy_string (SummaryResponse.summary summaryResponse))
  then h
  else
    match head (filter
                  (λ m, id (h m) = SummaryResponse.messageId summaryResponse)
                  (messages session)) with
    | Some message =>
        <[ message :=
             {| id := id (h message);
                role := role (h message);
                content := content (h message);
                summary := SummaryResponse.summary summaryResponse;
                useSummary := Some true;
                nTokens := nTokens (h message);
                nSummaryTokens :=
                  SummaryResponse.nSummaryTokens summaryResponse;
                date := date (h message);
                hidden := hidden (h message) |} ]> h
    | None => h
    end.

(** What a call to [summarizeMessage] does.  The function returns
    [undefined] at once; the promise chain it starts is not returned, so
    a rejection stays unhandled ([unhandled = Some e]) and reaches no
    caller. *)
Record Summarized := {
  requests : list ChatRequest.t;
  heap : Heap;
  returned : Completion ();
  unhandled : option Error
}.

Definition summarizeMessage (stores : Stores)
    (net : ChatRequest.t → FetchJson) (h : Heap)
    (messageForSummary : Loc) (session : ChatSession) : Summarized :=
  let s := summarizeMessageIncrementally stores net h
             messageForSummary session in
  match response s with
  | Resolved summaryResponse =>
      {| requests := sent s;
         heap := foldSummary h session summaryResponse;
         returned := Normal ();
         unhandled := None |}
  | Rejected e =>
      {| requests := sent s; heap := h;
         returned := Normal (); unhandled := Some e |}
  end.

(** [requestChatStream]: the request is assembled with
    [stream: true], then streamed. *)
Definition requestChatStream `{!TextDecoder} (stores : Stores)
    (messages : list Message) (overrideModel : option string)
    (onController : bool) (net : FetchOutcome) : list Event :=
  Stream.requestChatStream
    (makeRequestParam stores messages (Some (streamOptions overrideModel)))
    onController net.

(** [requestWithPrompt]; [now] is [new Date().toLocaleString()]. *)
Definition requestWithPrompt (stores : Stores)
    (net : ChatRequest.t → FetchJson) (messages : list Message)
    (prompt now : string) (options : option ChatOptions.t)
    : ChatRequest.t * Promise string :=
  let messages := messages ++ [ plainMessage user prompt now ] in
  let call := requestChat stores net messages options in
  (request call,
   then_ (reply call) (λ res, default "" (ChatResponse.first_content res))).

End WithConstants.
End Part001.

(** ** part_002: [isMessageInSummaryMode], [getMessageOrSummary] and the
    gated, in-place [summarizeMessageIncrementally] *)

Module Part002.
Section WithConstants.
Context `{!Constant} `{!Locale}.

(** The default value of the parameter [checkFlag]. *)
Definition checkFlag_default : bool := false.

Definition isMessageInSummaryMode (message : Message)
    (session : ChatSession) (checkFlag : bool) : bool :=
  (truthy_string (summary message)
   && (negb checkFlag || truthy_bool (useSummary message)))
  || false.

Definition getMessageOrSummary (message : Message)
    (session : ChatSession) (checkFlag : bool) : Message * bool :=
  let inSummaryMode := isMessageInSummaryMode message session checkFlag in
  (plainMessage (role message)
     (default "" (if inSummaryMode then summary message
                  else Some (content message)))
     (date message),
   inSummaryMode).

Definition dquote : string := String (Ascii.ascii_of_nat 34) EmptyString.

Definition summaryIntro : Message :=
  plainMessage system
    ("Note that any message prefixed by " +:+ dquote
     +:+ INCREMENTAL_SUMMARY_PREFIX +:+ dquote
     +:+ " has been previously summarized by you, so it does not appear in full or in the original form.")
    "".

(** The callback of the second [map] in [makeRequestParam]. *)
Definition sendMessage (p : Message * bool) : ChatRequest.Msg :=
  let '(message, inSummary) := p in
  {| ChatRequest.role := role message;
     ChatRequest.content :=
       if inSummary
       then INCREMENTAL_SUMMARY_PREFIX +:+ " " +:+ content message
       else content message |}.

Definition makeRequestParam (stores : Stores) (messages : list Message)
    (options : option RequestOptions) : ChatRequest.t :=
  let session := currentSession stores in
  let sendMessages :=
    sendMessage <$>
      ((λ message, getMessageOrSummary message session checkFlag_default)
         <$> (summaryIntro :: messages)) in
  buildRequest sendMessages options
    (overrideConfig options (appModelConfig stores) (currentSession stores)).

Definition requestChat (stores : Stores) (net : ChatRequest.t → FetchJson)
    (messages : list Message) (options : option ChatOptions.t) : ChatCall :=
  let req := makeRequestParam stores messages
    (Some {| overrideModel := options ≫= ChatOptions.model;
             overrideTemperature := options ≫= ChatOptions.temperature;
             overridePresencePenalty :=
               options ≫= ChatOptions.presencePenalty;
             opt_stream := Some false |}) in
  {| request := req; reply := awaitJson (net req) |}.

(** The message list handed to [requestChat] by
    [summarizeMessageIncrementally], for a target found at index [i]. *)
Definition subConversation (h : Heap) (session : ChatSession)
    (i : nat) : list Message :=
  let systemMessages :=
    filter (λ message, role message = system) (h <$> context (mask session)) in
  systemMessages
  ++ [ plainMessage system SummarizeIncremental "" ]
  ++ (fst <$>
       ((λ message, getMessageOrSummary message session false)
          <$> (h <$> take (S i) (messages session)))).

(** What a call to [summarizeMessageIncrementally] does: the requests it
    sends, the promise it returns (of the message object itself) and the
    heap once that promise has settled. *)
Record Summarizing := {
  sent : list ChatRequest.t;
  result : Promise Loc;
  heap : Heap
}.

Definition summarizeMessageIncrementally (stores : Stores)
    (net : ChatRequest.t → FetchJson) (h : Heap)
    (message : Loc) (session : ChatSession) : Summarizing :=
  if negb (bool_decide (summaryLevel (modelConfig (mask session))
                        = Incremental))
  then {| sent := []; result := Resolved message; heap := h |}
  else if bool_decide
            (String.length (content (h message))
             < compressMessageLengthThreshold (modelConfig (mask session)))
  then {| sent := []; result := Resolved message; heap := h |}
  else
    match indexOf (messages session) message with
    | None => {| sent := []; result := Resolved message; heap := h |}
    | Some i =>
        let call := requestChat stores net (subConversation h session i)
          (Some {| ChatOptions.model := Some "gpt-4";
                   ChatOptions.temperature := Some (7 # 10)%Q;
                   ChatOptions.presencePenalty := Some 0%Q |}) in
        match reply call with
        | Rejected e =>
            {| sent := [request call]; result := Rejected e; heap := h |}
        | Resolved response =>
            let summary := ChatResponse.first_content response in
            {| sent := [request call];
               result := Resolved message;
               heap :=
                 if truthy_string summary
                 then <[ message :=
                           {| id := id (h message);
                              role := role (h message);
                              content := content (h message);
                              summary := summary;
                              useSummary := Some true;
                              nTokens := nTokens (h message);
                              nSummaryTokens :=
                                ChatResponse.usage_completion_tokens response;
                              date := date (h message);
                              hidden := hidden (h message) |} ]> h
                 else h |}
        end
    end.

(** [requestChatStream]: the request is assembled with
    [stream: true], then streamed. *)
Definition requestChatStream `{!TextDecoder} (stores : Stores)
    (messages : list Message) (overrideModel : option string)
    (onController : bool) (net : FetchOutcome) : list Event :=
  Stream.requestChatStream
    (makeRequestParam stores messages (Some (streamOptions overrideModel)))
    onController net.

(** [requestWithPrompt]; [now] is [new Date().toLocaleString()]. *)
Definition requestWithPrompt (stores : Stores)
    (net : ChatRequest.t → FetchJson) (messages : list Message)
    (prompt now : string) (options : option ChatOptions.t)
    : ChatRequest.t * Promise string :=
  let messages := messages ++ [ plainMessage user prompt now ] in
  let call := requestChat stores net messages options in
  (request call,
   then_ (reply call) (λ res, default "" (ChatResponse.first_content res))).

(** What a call to [annotateTokenCount] does: the requests it sends, the
    promise it returns (of the message object itself) and the heap once
    that promise has settled. *)
Record Annotating := {
  annotating_sent : list ChatRequest.t;
  annotating_result : Promise Loc;
  annotating_heap : Heap
}.

(** [annotateTokenCount].  [None] only when [shuffleWords] is. *)
Definition annotateTokenCount (stores : Stores)
    (net : ChatRequest.t → FetchJson) (random : nat → Q) (h : Heap)
    (message : Loc) : option Annotating :=
  if negb (truthy_string (Some (content (h message))))
  then Some {| annotating_sent := [];
               annotating_result := Resolved message;
               annotating_heap := h |}
  else
    shuffledText ← shuffleWords random (content (h message));
    let call := requestChat stores net
      [ plainMessage user (shuffledText +:+ newline +:+ "Nevermind") "" ]
      (Some {| ChatOptions.model := Some "gpt-3.5-turbo";
               ChatOptions.temperature := Some (2 # 10)%Q;
               ChatOptions.presencePenalty := Some 0%Q |}) in
    match reply call with
    | Rejected e =>
        Some {| annotating_sent := [request call];
                annotating_result := Rejected e;
                annotating_heap := h |}
    | Resolved response =>
        let nTokens :=
          r ← response; u ← ChatResponse.usage r;
          ChatResponse.prompt_tokens u in
        Some {| annotating_sent := [request call];
                annotating_result := Resolved message;
                annotating_heap :=
                  if truthy_nat nTokens
                  then <[ message :=
                            {| id := id (h message);
                               role := role (h message);
                               content := content (h message);
                               summary := summary (h message);
                               useSummary := useSummary (h message);
                               nTokens := nTokens;
                               nSummaryTokens := nSummaryTokens (h message);
                               date := date (h message);
                               hidden := hidden (h message) |} ]> h
                  else h |}
    end.

End WithConstants.
End Part002.

(** ** part_003: the stream with token counts

    [makeRequestParam] is the text of part_000. *)

Module Part003.
Section WithConstants.
Context `{!Constant} `{!Tiktoken} `{!TextDecoder}.

Definition makeRequestParam := Part000.makeRequestParam.

(** [requestChat] (part_003): the options carry no [stream] property. *)
Definition requestChat (stores : Stores) (net : ChatRequest.t → FetchJson)
    (messages : list Message) (options : option ChatOptions.t) : ChatCall :=
  let req := makeRequestParam stores messages
    (Some {| overrideModel := options ≫= ChatOptions.model;
             overrideTemperature := options ≫= ChatOptions.temperature;
             overridePresencePenalty :=
               options ≫= ChatOptions.presencePenalty;
             opt_stream := None |}) in
  {| request := req; reply := awaitJson (net req) |}.

(** [requestWithPrompt]; [now] is [new Date().toLocaleString()]. *)
Definition requestWithPrompt (stores : Stores)
    (net : ChatRequest.t → FetchJson) (messages : list Message)
    (prompt now : string) (options : option ChatOptions.t)
    : ChatRequest.t * Promise string :=
  let messages := messages ++ [ plainMessage user prompt now ] in
  let call := requestChat stores net messages options in
  (request call,
   then_ (reply call) (λ res, default "" (ChatResponse.first_content res))).

(** [finish]. *)
Definition finish (responseText : string)
    (nPromptTokens nCompletionTokens : option nat) : Eff () :=
  emit (OnMessage responseText true nPromptTokens nCompletionTokens);;
  emit Abort.

(** The callback of the idle timer. *)
Definition idleCallback (nPromptTokens : nat) (responseText : string)
    : Eff () :=
  let nCompletionTokens := length (encode responseText) in
  finish responseText (Some nPromptTokens) (Some nCompletionTokens).

(** The [while (true)] loop; it returns the text accumulated when the
    loop is left.  Each round arms the idle timer, awaits the read and
    clears the timer.  When the read rejects, the [await] throws and the
    [clearTimeout] is not reached: the timer stays armed.  When the read
    stalls ([ReadStalls]) the timer fires while the read is pending; its
    [finish] calls [controller.abort()], which aborts the signal of the
    fetch, so the pending [read()] rejects and the [await] throws into
    the enclosing [try].  The callback reads [responseText] when it fires;
    the variable is assigned only after the [clearTimeout], so that is the
    text at the time the timer is armed. *)
Fixpoint readLoop (nPromptTokens : nat) (decoder : DecoderState)
    (responseText : string) (reader : BodyScript) : Eff string :=
  resTimeoutId ←
    setTimeout (callback (idleCallback nPromptTokens responseText));
  match reader with
  | ReadStalls => fires resTimeoutId;; throw AbortError
  | ReadRejects e => throw e
  | Read content rest =>
      clearTimeout resTimeoutId;;
      match value content with
      | None => mret responseText
      | Some v =>
          let '(text, decoder) := decode decoder v in
          let responseText := responseText +:+ text in
          emit (OnMessage responseText false (Some nPromptTokens) None);;
          if done content then mret responseText
          else readLoop nPromptTokens decoder responseText rest
      end
  end.

(** The loop on [res.body?.getReader()]: without a reader,
    [reader?.read()] is [undefined]; the round arms and clears its timer
    and the loop is left. *)
Definition readAll (nPromptTokens : nat) (body : option BodyScript)
    : Eff string :=
  match body with
  | None =>
      resTimeoutId ← setTimeout (callback (idleCallback nPromptTokens ""));
      clearTimeout resTimeoutId;;
      mret ""
  | Some reader => readLoop nPromptTokens newTextDecoder "" reader
  end.

(** [requestChatStream].  [onController] tells whether the caller
    passed that optional callback. *)
Definition requestChatStream (stores : Stores) (messages : list Message)
    (overrideModel : option string) (onController : bool)
    (net : FetchOutcome) : list Event :=
  let req := makeRequestParam stores messages
               (Some (streamOptions overrideModel)) in
  run (
    reqTimeoutId ← setTimeout (callback (emit Abort));
    try_catch
      (emit (Fetch req);;
       let concatedMessages := String.concat newline (content <$> messages) in
       let nPromptTokens := length (encode concatedMessages) in
       res ← awaitFetch reqTimeoutId net;
       clearTimeout reqTimeoutId;;
       if ok res then
         when onController (emit OnController);;
         responseText ← readAll nPromptTokens (body res);
         let nCompletionTokens := length (encode responseText) in
         finish responseText (Some nPromptTokens) (Some nCompletionTokens)
       else if bool_decide (status res = 401%nat) then
         emit (OnError (NewError "Unauthorized") (Some (status res)))
       else
         emit (OnError (NewError "Stream Error") (Some (status res))))
      (λ err, emit (OnError err None))).

End WithConstants.
End Part003.

(** ** Reading a trace *)

(** The [onMessage] calls of a trace: text and [done] flag. *)
Definition onMessage_calls (tr : list Event) : list (string * bool) :=
  omap (λ ev, match ev with
              | OnMessage t d _ _ => Some (t, d)
              | _ => None
              end) tr.

(** The [onError] calls of a trace. *)
Definition onError_calls (tr : list Event) : list (Error * option nat) :=
  omap (λ ev, match ev with
              | OnError e c => Some (e, c)
              | _ => None
              end) tr.

(** The terminal callbacks of a trace: [onMessage(..., true)] and
    [onError]. *)
Definition is_terminal (ev : Event) : bool :=
  match ev with
  | OnMessage _ true _ _ => true
  | OnError _ _ => true
  | _ => false
  end.

Definition terminal_calls (tr : list Event) : list Event :=
  filter (λ ev, is_terminal ev = true) tr.

(** A decoder for chunks of 7-bit text: every byte is one character and
    nothing is carried over. *)
Definition asciiDecoder : TextDecoder :=
  {| DecoderState := ();
     newTextDecoder := ();
     decode := λ _ bytes, (String.string_of_list_byte bytes, ()) |}.

(** A chunk carrying the bytes of a text, not the last one. *)
Definition chunk (s : string) : ReadResult :=
  {| value := Some (String.list_byte_of_string s); done := false |}.

(** The result of a read at the end of the stream. *)
Definition endOfStream : ReadResult := {| value := None; done := true |}.

(** ** Properties as the specification words them, and example values *)

Local Open Scope nat_scope.

(** Concrete values used in examples. *)
Definition exampleConstant : Constant :=
  {| INCREMENTAL_SUMMARY_PREFIX := "[SUMMARY]" |}.

Definition exampleLocale : Locale :=
  {| SummarizeIncremental := "Summarize the last message." |}.

Definition exampleConfig (threshold : nat) : ModelConfig :=
  {| model := Some "gpt-3.5-turbo";
     temperature := Some 1%Q;
     presence_penalty := Some 0%Q;
     summaryLevel := Incremental;
     compressMessageLengthThreshold := threshold |}.

Definition exampleSession (threshold : nat) (msgs : list Loc) : ChatSession :=
  {| mask := {| modelConfig := exampleConfig threshold; context := [] |};
     messages := msgs |}.

Definition exampleStores : Stores :=
  {| appModelConfig := exampleConfig 1000;
     currentSession := exampleSession 1000 [] |}.

(** A message that has a cached summary and whose flag is off. *)
Definition flagOffMessage : Message :=
  {| id := Some 1%Z; role := user; content := "original text";
     summary := Some "short"; useSummary := Some false;
     nTokens := None; nSummaryTokens := None;
     date := "2023-05-01"; hidden := None |}.

(** The property of the assembler output [out], whose first [offset]
    entries are injected preamble: every message whose [useSummary] is off
    goes out with its original content. *)
Definition flag_off_verbatim (out : list ChatRequest.Msg) (offset : nat)
    (msgs : list Message) : Prop :=
  ∀ i m, msgs !! i = Some m → truthy_bool (useSummary m) = false →
    ChatRequest.content <$> out !! (offset + i)%nat = Some (content m).

(** The pair that part_002 sends for one message. *)
Definition part002_pair `{!Constant} (m : Message) : ChatRequest.Msg :=
  {| ChatRequest.role := role m;
     ChatRequest.content :=
       if truthy_string (summary m)
       then INCREMENTAL_SUMMARY_PREFIX +:+ " " +:+ default "" (summary m)
       else content m |}.

(** The options of the summarization sub-request: [gpt-4], 0.7, 0. *)
Definition summaryOptions : option ChatOptions.t :=
  Some {| ChatOptions.model := Some "gpt-4";
          ChatOptions.temperature := Some (7 # 10)%Q;
          ChatOptions.presencePenalty := Some 0%Q |}.

(** A message rendered as its summary when it has a non-empty one. *)
Definition rendered (m : Message) : Message :=
  plainMessage (role m)
    (if truthy_string (summary m) then default "" (summary m) else content m)
    (date m).

(** The property of a summarize operation, given by the requests it
    sends: for a message shorter than the threshold of its session it
    sends nothing. *)
Definition below_threshold_sends_nothing
    (sent_of : Heap → Loc → ChatSession → list ChatRequest.t) : Prop :=
  ∀ (h : Heap) (message : Loc) (session : ChatSession),
    String.length (content (h message))
      < compressMessageLengthThreshold (modelConfig (mask session)) →
    sent_of h message session = [].

(** An example heap: a hidden message at address 0, a visible one at
    address 1, a short one elsewhere. *)
Definition exampleHeap : Heap := λ l,
  match l with
  | 0 => {| id := Some 10%Z; role := user; content := "secret";
            summary := None; useSummary := None; nTokens := None;
            nSummaryTokens := None; date := "d0"; hidden := Some true |}
  | 1 => {| id := Some 11%Z; role := assistant;
            content := "a long enough answer";
            summary := None; useSummary := None; nTokens := None;
            nSummaryTokens := None; date := "d1"; hidden := None |}
  | _ => {| id := Some 12%Z; role := user; content := "hi";
            summary := None; useSummary := None; nTokens := None;
            nSummaryTokens := None; date := "d2"; hidden := None |}
  end.

(** The sub-conversation in the words of the specification: the
    persistent system messages, then the non-hidden messages up to and
    including the target (at index [i]), each rendered as its summary if
    it has one, and an instruction message. *)
Definition spec_subConversation `{!Locale} (h : Heap) (session : ChatSession)
    (i : nat) (instructionDate : string) : list Message :=
  filter (λ m, role m = system) (h <$> context (mask session))
  ++ (rendered <$> filter (λ m, truthy_bool (hidden m) = false)
                     (h <$> take (S i) (messages session)))
  ++ [ plainMessage system SummarizeIncremental instructionDate ].

(** The ways in which the sub-request yields no summary: [fetch]
    rejects, the body is not JSON, or the parsed body has no non-empty
    [choices[0].message.content]. *)
Definition unusable (r : FetchJson) : Prop :=
  match r with
  | FetchJsonRejects _ => True
  | JsonFails => True
  | Json r => truthy_string (ChatResponse.first_content (Some r)) = false
  end.

(** The outcome the specification promises for a failed sub-request: the
    heap is as it was and the promise returned to the caller resolves. *)
Definition failure_absorbed (r : Part002.Summarizing) (h : Heap) : Prop :=
  Part002.heap r = h ∧ ∃ l, Part002.result r = Resolved l.

(** A tokenizer for examples: one token per character. *)
Definition exampleTiktoken : Tiktoken :=
  {| encode := λ s, replicate (String.length s) 0%nat |}.

(** [progress n calls k]: intermediate calls only, each text at least as
    long as the one before, starting from length [n] and ending at
    length [k]. *)
Inductive progress : nat → list (string * bool) → nat → Prop :=
| progress_nil n : progress n [] n
| progress_cons n t calls k :
    n ≤ String.length t →
    progress (String.length t) calls k →
    progress n ((t, false) :: calls) k.

(** [ordered n calls]: intermediate calls, then at most one final call,
    with texts of non-decreasing length, all at least [n]. *)
Inductive ordered : nat → list (string * bool) → Prop :=
| ordered_nil n : ordered n []
| ordered_last n t : n ≤ String.length t → ordered n [(t, true)]
| ordered_cons n t calls :
    n ≤ String.length t →
    ordered (String.length t) calls →
    ordered n ((t, false) :: calls).

(** Whether the read loop is left by an exception: a read rejects, or a
    read is still pending when the idle timer fires. *)
Fixpoint read_interrupted (reader : BodyScript) : bool :=
  match reader with
  | ReadStalls => true
  | ReadRejects _ => true
  | Read content rest =>
      match value content with
      | None => false
      | Some _ => if done content then false else read_interrupted rest
      end
  end.

(** Whether a call to [requestChatStream] gets to that point. *)
Definition stream_interrupted (net : FetchOutcome) : bool :=
  match net with
  | Responds res =>
      ok res && from_option read_interrupted false (body res)
  | _ => false
  end.

(** A successful response whose body delivers the chunk [Hel] and then
    rejects the next read, as it does when the caller aborts the
    controller. *)
Definition abortedAfterHel : FetchOutcome :=
  Responds {| status := 200;
              body := Some (Read (chunk "Hel") (ReadRejects AbortError)) |}.

(** The timers state between two rounds of the loop: nothing armed. *)
Definition idle (n : nat) : Timers := {| armed := []; next_id := n |}.

(** The actions of the idle timer's callback, with token counts
    (part_003) and without. *)
Definition idleEvents `{!Tiktoken} (nP : nat) (text : string) : list Event :=
  [ OnMessage text true (Some nP) (Some (length (encode text))); Abort ].

Definition plainIdleEvents (text : string) : list Event :=
  [ OnMessage text true None None; Abort ].

(** A successful response whose body delivers the chunk [Hel] and then
    nothing for [TIME_OUT_MS]. *)
Definition stalledAfterHel : FetchOutcome :=
  Responds {| status := 200;
              body := Some (Read (chunk "Hel") ReadStalls) |}.

(** ** [getHeaders] and the requests handed to [fetch] (all revisions) *)

(** [ACCESS_CODE_PREFIX] of ./constant. *)
Class AccessConstant := { ACCESS_CODE_PREFIX : string }.

(** [String.prototype.trim]. *)
Class StringTrim := { trim : string → string }.

(** The state of [useAccessStore]: the user's API key, the access code,
    the result of [enabledAccessControl()] and the base URL. *)
Record AccessStore := {
  token : option string;
  accessCode : option string;
  enabledAccessControl : bool;
  openaiUrl : string
}.

(** [validString]: [x && x.length > 0]. *)
Definition validString (x : option string) : bool := truthy_string x.

(** [makeBearer]. *)
Definition makeBearer `{!StringTrim} (token : string) : string :=
  "Bearer " +:+ trim token.

(** [getHeaders]. *)
Definition getHeaders `{!AccessConstant} `{!StringTrim}
    (accessStore : AccessStore) : gmap string string :=
  if validString (token accessStore)
  then <["Authorization" := makeBearer (default "" (token accessStore))]> ∅
  else if enabledAccessControl accessStore
          && validString (accessCode accessStore)
  then <["Authorization" :=
           makeBearer (ACCESS_CODE_PREFIX
                       +:+ default "" (accessCode accessStore))]> ∅
  else ∅.

(** The arguments of a [fetch] call; [fetchBody] is the value that is
    passed through [JSON.stringify], [None] for no body. *)
Record FetchCall := {
  url : string;
  method : string;
  fetchBody : option ChatRequest.t;
  headers : gmap string string
}.

(** [requestOpenaiClient(path)(body, method)]; [method = None] takes the
    default ["POST"]. *)
Definition requestOpenaiClient `{!AccessConstant} `{!StringTrim}
    (accessStore : AccessStore) (path : string)
    (body : option ChatRequest.t) (method : option string) : FetchCall :=
  {| url := openaiUrl accessStore +:+ path;
     method := default "POST" method;
     fetchBody := body;
     headers := getHeaders accessStore |}.

(** The [fetch] call of [requestChatStream]: the object spread puts the
    headers of [getHeaders] over the content type. *)
Definition streamFetch `{!AccessConstant} `{!StringTrim}
    (accessStore : AccessStore) (req : ChatRequest.t) : FetchCall :=
  {| url := openaiUrl accessStore +:+ "v1/chat/completions";
     method := "POST";
     fetchBody := Some req;
     headers := getHeaders accessStore
                ∪ {[ "Content-Type" := "application/json" ]} |}.

(** ** What a response body amounts to, for the read loop *)

(** How the read loop is left. *)
Inductive LoopEnd :=
| EndOfBody
| IdleTimeout
| ReadFailure (e : Error).

(** The texts the loop reports one after the other, the text accumulated
    when it is left, and how it is left. *)
Fixpoint loopRun `{!TextDecoder} (decoder : DecoderState) (text : string)
    (reader : BodyScript) : list string * string * LoopEnd :=
  match reader with
  | ReadStalls => ([], text, IdleTimeout)
  | ReadRejects e => ([], text, ReadFailure e)
  | Read content rest =>
      match value content with
      | None => ([], text, EndOfBody)
      | Some v =>
          let '(tx, decoder) := decode decoder v in
          if done content then ([text +:+ tx], text +:+ tx, EndOfBody)
          else
            let '(texts, final, e) := loopRun decoder (text +:+ tx) rest in
            ((text +:+ tx) :: texts, final, e)
      end
  end.

Definition bodyRun `{!TextDecoder} (body : option BodyScript)
    : list string * string * LoopEnd :=
  match body with
  | None => ([], "", EndOfBody)
  | Some reader => loopRun newTextDecoder "" reader
  end.

(** The end of the trace of a successful response, by the way the loop
    is left; [final] are the actions of [finish]. *)
Definition ending (final : list Event) (e : LoopEnd) : list Event :=
  match e with
  | EndOfBody => final
  | IdleTimeout => final ++ [ OnError AbortError None ]
  | ReadFailure err => OnError err None :: final
  end.

(** A body that delivers the given chunks and then ends. *)
Definition bodyOfChunks (chunks : list (list Byte.byte)) (rest : BodyScript)
    : BodyScript :=
  foldr (λ v r, Read {| value := Some v; done := false |} r)
    (Read endOfStream rest) chunks.

(** The texts accumulated chunk by chunk. *)
Fixpoint runningTexts `{!TextDecoder} (decoder : DecoderState)
    (text : string) (chunks : list (list Byte.byte)) : list string :=
  match chunks with
  | [] => []
  | v :: chunks =>
      let '(tx, decoder) := decode decoder v in
      (text +:+ tx) :: runningTexts decoder (text +:+ tx) chunks
  end.

(** The invariant of the data model: a message marked for substitution
    has a non-empty summary. *)
Definition summary_invariant (h : Heap) : Prop :=
  ∀ l, truthy_bool (useSummary (h l)) = true →
       truthy_string (summary (h l)) = true.

(** A [trim] for examples: it drops the spaces at both ends. *)
Fixpoint dropSpaces (s : string) : string :=
  match s with
  | String c rest => if Ascii.eqb c space then dropSpaces rest else s
  | EmptyString => EmptyString
  end.

Definition exampleTrim : StringTrim :=
  {| trim := λ s, String.rev (dropSpaces (String.rev (dropSpaces s))) |}.

Definition exampleAccessConstant : AccessConstant :=
  {| ACCESS_CODE_PREFIX := "ak-" |}.

(** Whether a character occurs in a string. *)
Fixpoint occurs (c : Ascii.ascii) (s : string) : bool :=
  match s with
  | EmptyString => false
  | String a rest => Ascii.eqb a c || occurs c rest
  end.

Definition comma : Ascii.ascii := Ascii.ascii_of_nat 44.

(** A message with a cached summary and the flag on, and one with the
    flag on and no summary. *)
Definition flagOnMessage : Message :=
  {| id := Some 2%Z; role := user; content := "original text";
     summary := Some "short"; useSummary := Some true;
     nTokens := None; nSummaryTokens := None;
     date := "2023-05-01"; hidden := None |}.

Definition flagOnNoSummary : Message :=
  {| id := Some 3%Z; role := user; content := "original text";
     summary := None; useSummary := Some true;
     nTokens := None; nSummaryTokens := None;
     date := "2023-05-01"; hidden := None |}.

(** A reply with the given text and some usage counts. *)
Definition exampleReply (text : string) : ChatResponse.t :=
  {| ChatResponse.choices :=
       Some [ {| ChatResponse.message :=
                   Some {| ChatResponse.content := Some text |} |} ];
     ChatResponse.usage :=
       Some {| ChatResponse.prompt_tokens := Some 40;
               ChatResponse.completion_tokens := Some 7 |} |}.

(** The example heap, with a summarized message at address 0. *)
Definition summarizedHeap : Heap := <[0 := flagOnMessage]> exampleHeap.

(** What [Math.random()] guarantees: every value is in [0, 1). *)
Definition unit_interval (random : nat → Q) : Prop :=
  ∀ k, (0 <= random k)%Q ∧ (random k < 1)%Q.

(** A source of random numbers for examples: always one half. *)
Definition halves : nat → Q := λ _, (1 # 2)%Q.

(** An intermediate call of [onMessage] in part_003. *)
Definition partial (nP : nat) (text : string) : Event :=
  OnMessage text false (Some nP) None.

(** What [requestChatStream] of part_003 passes to [onMessage]: the
    prompt token count in every call, the completion token count in the
    final call only. *)
Definition token_counts_ok `{!Tiktoken} (nP : nat) (ev : Event) : Prop :=
  match ev with
  | OnMessage text false p c => p = Some nP ∧ c = None
  | OnMessage text true p c =>
      p = Some nP ∧ c = Some (length (encode text))
  | _ => True
  end.

(** An event as the revisions without token counts report it. *)
Definition withoutTokens (ev : Event) : Event :=
  match ev with
  | OnMessage text done _ _ => OnMessage text done None None
  | _ => ev
  end.

(** * Theorems *)

(** ** Properties of the ControllerPool *)

Module ControllerPoolFacts.
Import ControllerPool.

Lemma abort_controllers v st : controllers (abort v st) = controllers st.
Proof. reflexivity. Qed.

Lemma stop_unregistered c m st :
  controllers st !! key c m = None → stop c m st = Normal st.
Proof. intros H. unfold stop. cbn. by rewrite H. Qed.

Lemma stop_registered c m v st :
  controllers st !! key c m = Some v → stop c m st = Normal (abort v st).
Proof. intros H. unfold stop. cbn. by rewrite H. Qed.

Lemma remove_lookup c m st : controllers (remove c m st) !! key c m = None.
Proof. cbn. apply lookup_delete_eq. Qed.

Lemma stopAll_fold_controllers vs st :
  controllers (foldl (λ s v, abort v s) st vs) = controllers st.
Proof.
  revert st. induction vs as [|v vs IH]; intros st; cbn; [done|].
  by rewrite IH.
Qed.

Lemma stopAll_controllers st : controllers (stopAll st) = controllers st.
Proof. apply stopAll_fold_controllers. Qed.

Lemma stopAll_fold_aborts vs st :
  aborts (foldl (λ s v, abort v s) st vs) = aborts st ++ vs.
Proof.
  revert st. induction vs as [|v vs IH]; intros st; cbn.
  - by rewrite app_nil_r.
  - rewrite IH. cbn. by rewrite <- app_assoc.
Qed.

(** [stopAll] cancels every registered controller, and only those. *)
Lemma stopAll_aborts st : aborts (stopAll st) = aborts st ++ values st.
Proof. apply stopAll_fold_aborts. Qed.

Lemma hasPending_nonempty st :
  hasPending st = true ↔ controllers st ≠ ∅.
Proof.
  unfold hasPending, values. rewrite bool_decide_eq_true.
  rewrite length_fmap. rewrite <- map_to_list_empty_iff.
  destruct (map_to_list (controllers st)); cbn; split; intros H;
    try done; lia.
Qed.

End ControllerPoolFacts.

(** Claim C7.  After [addController(c, m, h)] and [remove(c, m)], a call
    [stop(c, m)] returns normally and leaves the whole state as it was: no
    [abort()] is invoked, on [h] or on any other controller.  More
    generally [stop] on a key that is not registered returns normally and
    changes nothing. *)
Theorem C7_stop_after_remove_is_noop :
  ∀ (c m : Z) (h : AbortController) (st : ControllerPool.State),
    let st' := ControllerPool.remove c m
                 (ControllerPool.addController c m h st).2 in
    ControllerPool.stop c m st' = Normal st'
    ∧ ControllerPool.aborts st' = ControllerPool.aborts st
    ∧ (∀ st0 : ControllerPool.State,
         ControllerPool.controllers st0 !! ControllerPool.key c m = None →
         ControllerPool.stop c m st0 = Normal st0).
Proof.
  intros c m h st st'. split; [|split].
  - apply ControllerPoolFacts.stop_unregistered.
    apply ControllerPoolFacts.remove_lookup.
  - reflexivity.
  - intros st0. apply ControllerPoolFacts.stop_unregistered.
Qed.

Lemma C7_stop_after_remove_is_noop_witness :
  ControllerPool.stop 3 4 ControllerPool.empty = Normal ControllerPool.empty.
Proof.
  apply (C7_stop_after_remove_is_noop 3 4 7%nat ControllerPool.empty).
  reflexivity.
Defined.

(** Claim C10.  [stop] returns normally and the [controllers] map after
    it is the map from before the call, whether or not the key is
    registered; [hasPending] is therefore unchanged.  [stopAll] leaves the
    map unchanged as well, so only [addController] (an insertion) and
    [remove] (a deletion) change it. *)
Theorem C10_stop_preserves_registry :
  ∀ (c m : Z) (st : ControllerPool.State),
    (∃ st', ControllerPool.stop c m st = Normal st'
            ∧ ControllerPool.controllers st' = ControllerPool.controllers st
            ∧ ControllerPool.hasPending st' = ControllerPool.hasPending st)
    ∧ ControllerPool.controllers (ControllerPool.stopAll st)
      = ControllerPool.controllers st
    ∧ (∀ h, ControllerPool.controllers
              (ControllerPool.addController c m h st).2
            = <[ControllerPool.key c m := h]> (ControllerPool.controllers st))
    ∧ ControllerPool.controllers (ControllerPool.remove c m st)
      = delete (ControllerPool.key c m) (ControllerPool.controllers st).
Proof.
  intros c m st. split; [|split; [|split]].
  - destruct (ControllerPool.controllers st !! ControllerPool.key c m)
      as [v|] eqn:E.
    + exists (ControllerPool.abort v st). split; [|split].
      * by apply ControllerPoolFacts.stop_registered.
      * reflexivity.
      * reflexivity.
    + exists st. split; [|done].
      by apply ControllerPoolFacts.stop_unregistered.
  - apply ControllerPoolFacts.stopAll_controllers.
  - reflexivity.
  - reflexivity.
Qed.

(** ** The request assembler *)

Module AssemblerFacts.
Section WithConstants.
Context `{!Constant} `{!Locale}.

Lemma part000_messages stores msgs opts :
  ChatRequest.messages (Part000.makeRequestParam stores msgs opts)
  = Part000.sendMessage (currentSession stores) <$> msgs.
Proof. reflexivity. Qed.

Lemma part001_messages stores msgs opts :
  ChatRequest.messages (Part001.makeRequestParam stores msgs opts)
  = Part001.persona :: (Part001.baseMessage <$> msgs).
Proof. reflexivity. Qed.

(** Without the flag check, summary mode is just "has a summary". *)
Lemma isMessageInSummaryMode_unchecked m s :
  Part002.isMessageInSummaryMode m s false = truthy_string (summary m).
Proof.
  unfold Part002.isMessageInSummaryMode. cbn.
  by rewrite !orb_false_r, andb_true_r.
Qed.

(** With the flag check, both the summary and the flag are needed. *)
Lemma isMessageInSummaryMode_checked m s :
  Part002.isMessageInSummaryMode m s true
  = truthy_string (summary m) && truthy_bool (useSummary m).
Proof.
  unfold Part002.isMessageInSummaryMode. cbn. by rewrite orb_false_r.
Qed.

Lemma part002_sendMessage m s :
  Part002.sendMessage
    (Part002.getMessageOrSummary m s Part002.checkFlag_default)
  = part002_pair m.
Proof.
  unfold Part002.getMessageOrSummary, Part002.checkFlag_default.
  rewrite isMessageInSummaryMode_unchecked. unfold part002_pair.
  destruct (truthy_string (summary m)); reflexivity.
Qed.

Lemma part002_messages stores msgs opts :
  ChatRequest.messages (Part002.makeRequestParam stores msgs opts)
  = part002_pair Part002.summaryIntro :: (part002_pair <$> msgs).
Proof.
  unfold Part002.makeRequestParam, buildRequest. cbn [ChatRequest.messages].
  rewrite <- list_fmap_compose. rewrite fmap_cons.
  f_equal; first
    [ apply part002_sendMessage
    | apply list_fmap_ext; intros i m _; apply part002_sendMessage ].
Qed.

End WithConstants.
End AssemblerFacts.

(** Claim C2, amended.  For a message whose [useSummary] flag is off
    (false or absent): part_001, which tests the flag, sends the original
    content; part_002, which calls [getMessageOrSummary] without the flag
    check, and part_000, which tests the summary level and the summary,
    send the original content exactly when the message has no non-empty
    summary (part_000: or the level is not incremental), and the marker, a
    space and the summary otherwise. *)
Theorem C2_flag_off_outbound_content :
  ∀ (K : Constant) (stores : Stores) (msgs : list Message)
    (opts : option RequestOptions) (i : nat) (m : Message),
    msgs !! i = Some m →
    truthy_bool (useSummary m) = false →
    ChatRequest.messages (Part001.makeRequestParam stores msgs opts) !! S i
      = Some {| ChatRequest.role := role m;
                ChatRequest.content := content m |}
    ∧ ChatRequest.messages (Part002.makeRequestParam stores msgs opts) !! S i
      = Some {| ChatRequest.role := role m;
                ChatRequest.content :=
                  if truthy_string (summary m)
                  then INCREMENTAL_SUMMARY_PREFIX +:+ " "
                       +:+ default "" (summary m)
                  else content m |}
    ∧ ChatRequest.messages (Part000.makeRequestParam stores msgs opts) !! i
      = Some {| ChatRequest.role := role m;
                ChatRequest.content :=
                  if bool_decide
                       (summaryLevel (modelConfig (mask (currentSession stores)))
                        = Incremental)
                     && truthy_string (summary m)
                  then INCREMENTAL_SUMMARY_PREFIX +:+ " "
                       +:+ default "" (summary m)
                  else content m |}.
Proof.
  intros K stores msgs opts i m Hi Hflag. split; [|split].
  - rewrite AssemblerFacts.part001_messages.
    change ((Part001.baseMessage <$> msgs) !! i = Some
      {| ChatRequest.role := role m; ChatRequest.content := content m |}).
    rewrite list_lookup_fmap, Hi. cbn. unfold Part001.baseMessage.
    by rewrite Hflag.
  - rewrite AssemblerFacts.part002_messages.
    change ((part002_pair <$> msgs) !! i
            = Some (part002_pair m)).
    by rewrite list_lookup_fmap, Hi.
  - rewrite AssemblerFacts.part000_messages.
    by rewrite list_lookup_fmap, Hi.
Qed.

Lemma C2_flag_off_outbound_content_witness :
  ChatRequest.messages
    (@Part002.makeRequestParam exampleConstant exampleStores
       [flagOffMessage] None) !! 1%nat
  = Some {| ChatRequest.role := user;
            ChatRequest.content := "[SUMMARY] short" |}.
Proof.
  apply (C2_flag_off_outbound_content exampleConstant exampleStores
           [flagOffMessage] None 0%nat flagOffMessage); reflexivity.
Defined.

(** Claim C2 as stated fails on part_002 (and likewise on part_000): a
    message with a cached summary and the flag off goes out as marker and
    summary. *)
Lemma C2_counterexample :
  ¬ flag_off_verbatim
      (ChatRequest.messages
         (@Part002.makeRequestParam exampleConstant exampleStores
            [flagOffMessage] None))
      1 [flagOffMessage].
Proof.
  intros H. specialize (H 0%nat flagOffMessage eq_refl eq_refl).
  vm_compute in H. discriminate H.
Qed.

(** ** The context compression engine *)

Lemma indexOf_Some (l : list Loc) (x : Loc) (i : nat) :
  indexOf l x = Some i → l !! i = Some x ∧ x ∉ take i l.
Proof.
  revert i. induction l as [|y l IH]; intros i; cbn; [done|].
  destruct (decide (y = x)) as [->|Hne].
  - intros [= <-]. cbn. split; [done|]. apply not_elem_of_nil.
  - destruct (indexOf l x) as [j|] eqn:E; cbn; [|done].
    intros [= <-]. destruct (IH j eq_refl) as [Hl Hn]. cbn.
    split; [done|]. rewrite elem_of_cons. intros [->|Hin]; [done|].
    by apply Hn.
Qed.

Lemma indexOf_None (l : list Loc) (x : Loc) :
  indexOf l x = None ↔ x ∉ l.
Proof.
  induction l as [|y l IH]; cbn.
  - split; [intros _; apply not_elem_of_nil|done].
  - destruct (decide (y = x)) as [->|Hne].
    + split; [done|]. intros Hn. exfalso. apply Hn. by left.
    + rewrite elem_of_cons. destruct (indexOf l x) eqn:E; cbn.
      * split; [done|]. intros Hn. exfalso.
        assert (x ∉ l) as Hl by (intros ?; apply Hn; by right).
        apply IH in Hl. done.
      * split; [|done]. intros _ [->|Hin]; [done|]. by apply IH.
Qed.

Lemma take_S_indexOf (l : list Loc) (x : Loc) (i : nat) :
  indexOf l x = Some i → take (S i) l = take i l ++ [x].
Proof.
  intros H. apply indexOf_Some in H as [H _]. by apply take_S_r.
Qed.

(** Claim C3, amended.  In part_002, which carries the threshold gate, a
    message whose content is shorter than the threshold is never sent
    through the sub-request, whatever the summarization level: the call
    sends nothing, resolves with the message and leaves the heap as it
    was.  In part_001 the gates are commented out and the length is not
    consulted: no sub-request is sent exactly when the message is not in
    the session. *)
Theorem C3_below_threshold_no_subrequest :
  ∀ (K : Constant) (L : Locale) (stores : Stores)
    (net : ChatRequest.t → FetchJson) (h : Heap) (message : Loc)
    (session : ChatSession),
    (String.length (content (h message))
       < compressMessageLengthThreshold (modelConfig (mask session)) →
     Part002.summarizeMessageIncrementally stores net h message session
     = {| Part002.sent := []; Part002.result := Resolved message;
          Part002.heap := h |})
    ∧ (Part001.sent
         (Part001.summarizeMessageIncrementally stores net h message session)
       = [] ↔ message ∉ messages session).
Proof.
  intros K L stores net h message session. split.
  - intros Hlt. unfold Part002.summarizeMessageIncrementally.
    destruct (negb _); [done|].
    by rewrite bool_decide_eq_true_2.
  - rewrite <- indexOf_None.
    unfold Part001.summarizeMessageIncrementally.
    destruct (indexOf (messages session) message); cbn; split; done.
Qed.

Lemma C3_below_threshold_no_subrequest_witness :
  @Part002.summarizeMessageIncrementally exampleConstant exampleLocale
    exampleStores (λ _, JsonFails) exampleHeap 2 (exampleSession 1000 [2])
  = {| Part002.sent := []; Part002.result := Resolved 2;
       Part002.heap := exampleHeap |}.
Proof.
  apply (C3_below_threshold_no_subrequest exampleConstant exampleLocale
           exampleStores (λ _, JsonFails) exampleHeap 2
           (exampleSession 1000 [2])).
  cbn. lia.
Defined.

(** Claim C3 as stated fails on part_001: a two-character message of a
    session whose threshold is 1000 is sent through the sub-request. *)
Lemma C3_counterexample :
  ¬ below_threshold_sends_nothing (λ h message session,
      Part001.sent
        (@Part001.summarizeMessageIncrementally exampleConstant exampleLocale
           exampleStores (λ _, JsonFails) h message session)).
Proof.
  intros H.
  specialize (H exampleHeap 2 (exampleSession 1000 [2])).
  cbn in H. discriminate H. lia.
Qed.

Module CompressionFacts.
Section WithConstants.
Context `{!Constant} `{!Locale}.

Lemma getMessageOrSummary_rendered m s :
  (Part002.getMessageOrSummary m s false).1 = rendered m.
Proof.
  unfold Part002.getMessageOrSummary, rendered. cbn [fst].
  rewrite AssemblerFacts.isMessageInSummaryMode_unchecked.
  by destruct (truthy_string (summary m)).
Qed.

Lemma part002_subConversation h session message i :
  indexOf (messages session) message = Some i →
  Part002.subConversation h session i
  = filter (λ m, role m = system) (h <$> context (mask session))
    ++ [ plainMessage system SummarizeIncremental "" ]
    ++ (rendered <$> (h <$> take i (messages session)))
    ++ [ rendered (h message) ].
Proof.
  intros Hi. unfold Part002.subConversation.
  rewrite (take_S_indexOf _ _ _ Hi).
  rewrite <- !list_fmap_compose, fmap_app. cbn [fmap list_fmap].
  do 2 f_equal. f_equal.
  - apply list_fmap_ext. intros j l _. cbn.
    apply getMessageOrSummary_rendered.
  - cbn. f_equal. apply getMessageOrSummary_rendered.
Qed.

Lemma part002_unusable_heap stores net h message session :
  (∀ req, unusable (net req)) →
  Part002.heap
    (Part002.summarizeMessageIncrementally stores net h message session)
  = h.
Proof.
  intros Hnet. unfold Part002.summarizeMessageIncrementally.
  destruct (negb _); [done|]. destruct (bool_decide _); [done|].
  destruct (indexOf _ _) as [i|]; [|done].
  cbn [Part002.requestChat reply request].
  specialize (Hnet (Part002.makeRequestParam stores
    (Part002.subConversation h session i)
    (Some {| opt_stream := Some false;
             overrideModel := Some "gpt-4";
             overrideTemperature := Some (7 # 10)%Q;
             overridePresencePenalty := Some 0%Q |}))).
  cbn in Hnet |- *.
  destruct (net _) as [e| |r]; cbn in *; [done|done|].
  by rewrite Hnet.
Qed.

Lemma part002_resolves stores net h message session :
  (∀ req e, net req ≠ FetchJsonRejects e) →
  Part002.result
    (Part002.summarizeMessageIncrementally stores net h message session)
  = Resolved message.
Proof.
  intros Hnet. unfold Part002.summarizeMessageIncrementally.
  destruct (negb _); [done|]. destruct (bool_decide _); [done|].
  destruct (indexOf _ _) as [i|]; [|done].
  cbn [Part002.requestChat reply request].
  destruct (net _) as [e| |r] eqn:E; cbn; [|done|done].
  by apply Hnet in E.
Qed.

Lemma part001_unusable_heap stores net h message session :
  (∀ req, unusable (net req)) →
  Part001.heap (Part001.summarizeMessage stores net h message session) = h.
Proof.
  intros Hnet.
  unfold Part001.summarizeMessage, Part001.summarizeMessageIncrementally.
  destruct (indexOf _ _) as [i|]; [|done].
  cbn [Part001.requestChat reply request Part001.response Part001.sent].
  specialize (Hnet (Part001.makeRequestParam stores
    (Part001.subConversation h session message i)
    (Some {| opt_stream := Some false;
             overrideModel := Some "gpt-4";
             overrideTemperature := Some (7 # 10)%Q;
             overridePresencePenalty := Some 0%Q |}))).
  cbn in Hnet |- *.
  destruct (net _) as [e| |r]; cbn in *; [done|done|].
  unfold Part001.foldSummary.
  cbn [SummaryResponse.summary]. by rewrite Hnet.
Qed.

End WithConstants.
End CompressionFacts.

(** Claim C8, amended.  For a target message found in its session at index
    [i], the sub-request is [requestChat] on these messages with the fixed
    options.  In part_001: the system messages of the context, the
    non-hidden messages strictly before the target as they are (the
    assembler renders them by their [useSummary] flag), the instruction
    message, and the target itself as the last message, hidden or not.  In
    part_002, which sends a sub-request only at the incremental level and
    for a content at or above the threshold: the system messages of the
    context, the instruction message, then every message up to and
    including the target, hidden or not, each rendered as its summary if it
    has a non-empty one. *)
Theorem C8_subrequest_contents :
  ∀ (K : Constant) (L : Locale) (stores : Stores)
    (net : ChatRequest.t → FetchJson) (h : Heap) (message : Loc)
    (session : ChatSession) (i : nat),
    indexOf (messages session) message = Some i →
    messages session !! i = Some message
    ∧ Part001.sent
        (Part001.summarizeMessageIncrementally stores net h message session)
      = [ request (Part001.requestChat stores net
            (filter (λ m, role m = system) (h <$> context (mask session))
             ++ filter (λ m, truthy_bool (hidden m) = false)
                  (h <$> take i (messages session))
             ++ [ plainMessage system SummarizeIncremental (date (h message));
                  h message ])
            summaryOptions) ]
    ∧ (summaryLevel (modelConfig (mask session)) = Incremental →
       (compressMessageLengthThreshold (modelConfig (mask session))
          ≤ String.length (content (h message)))%nat →
       Part002.sent
         (Part002.summarizeMessageIncrementally stores net h message session)
       = [ request (Part002.requestChat stores net
             (filter (λ m, role m = system) (h <$> context (mask session))
              ++ [ plainMessage system SummarizeIncremental "" ]
              ++ (rendered <$> (h <$> take i (messages session)))
              ++ [ rendered (h message) ])
             summaryOptions) ]).
Proof.
  intros K L stores net h message session i Hi. split; [|split].
  - by apply indexOf_Some in Hi as [? _].
  - unfold Part001.summarizeMessageIncrementally. by rewrite Hi.
  - intros Hlevel Hlen. unfold Part002.summarizeMessageIncrementally.
    rewrite (bool_decide_eq_true_2 _ Hlevel). cbn [negb].
    rewrite bool_decide_eq_false_2 by lia. rewrite Hi.
    rewrite <- (CompressionFacts.part002_subConversation _ _ _ _ Hi).
    cbn [Part002.requestChat reply request].
    by destruct (net _).
Qed.

Lemma C8_subrequest_contents_witness :
  Part002.sent
    (@Part002.summarizeMessageIncrementally exampleConstant exampleLocale
       exampleStores (λ _, JsonFails) exampleHeap 1 (exampleSession 5 [0; 1]))
  = [ request (@Part002.requestChat exampleConstant exampleStores
        (λ _, JsonFails)
        ([ plainMessage system "Summarize the last message." "" ]
         ++ [ plainMessage user "secret" "d0" ]
         ++ [ plainMessage assistant "a long enough answer" "d1" ])
        summaryOptions) ].
Proof.
  apply (C8_subrequest_contents exampleConstant exampleLocale exampleStores
           (λ _, JsonFails) exampleHeap 1 (exampleSession 5 [0; 1]) 1).
  - reflexivity.
  - reflexivity.
  - cbn. lia.
Defined.

(** Claim C8 as stated fails on part_002: with a hidden message before the
    target, the sub-conversation that [summarizeMessageIncrementally]
    hands to [requestChat] contains the hidden message, so it is no
    rearrangement of the one the specification describes. *)
Lemma C8_counterexample :
  Part002.sent
    (@Part002.summarizeMessageIncrementally exampleConstant exampleLocale
       exampleStores (λ _, JsonFails) exampleHeap 1 (exampleSession 5 [0; 1]))
  = [ request (@Part002.requestChat exampleConstant exampleStores
        (λ _, JsonFails)
        (@Part002.subConversation exampleLocale exampleHeap
           (exampleSession 5 [0; 1]) 1)
        summaryOptions) ]
  ∧ plainMessage user "secret" "d0"
      ∈ @Part002.subConversation exampleLocale exampleHeap
          (exampleSession 5 [0; 1]) 1
  ∧ ¬ ∃ d, @Part002.subConversation exampleLocale exampleHeap
             (exampleSession 5 [0; 1]) 1
           ≡ₚ @spec_subConversation exampleLocale exampleHeap
                (exampleSession 5 [0; 1]) 1 d.
Proof.
  split; [reflexivity|]. split.
  - vm_compute. apply list_elem_of_In. right. left. reflexivity.
  - intros [d Hp]. apply Permutation_length in Hp. vm_compute in Hp.
    discriminate Hp.
Qed.

(** Claim C9, amended.  If the sub-request fails or yields no non-empty
    summary, no message object is changed, in part_002 and in part_001; in
    particular the target keeps its [summary], [useSummary] and
    [nSummaryTokens].  [summarizeMessage] of part_001 returns normally, and
    whenever the fetch itself does not reject, the promise of part_002
    resolves with the message and part_001 leaves no rejection unhandled.
    A rejection of the fetch is not caught: whenever the sub-request is
    sent, it rejects the promise that part_002 returns, and in part_001 it
    stays unhandled behind [summarizeMessage]. *)
Theorem C9_failed_summary_leaves_message :
  ∀ (K : Constant) (L : Locale) (stores : Stores)
    (net : ChatRequest.t → FetchJson) (h : Heap) (message : Loc)
    (session : ChatSession),
    (∀ req, unusable (net req)) →
    Part002.heap
      (Part002.summarizeMessageIncrementally stores net h message session) = h
    ∧ Part001.heap
        (Part001.summarizeMessage stores net h message session) = h
    ∧ Part001.returned
        (Part001.summarizeMessage stores net h message session) = Normal ()
    ∧ ((∀ req e, net req ≠ FetchJsonRejects e) →
       Part002.result
         (Part002.summarizeMessageIncrementally stores net h message session)
       = Resolved message)
    ∧ ((∀ req e, net req ≠ FetchJsonRejects e) →
       Part001.unhandled
         (Part001.summarizeMessage stores net h message session) = None)
    ∧ (∀ e i,
         (∀ req, net req = FetchJsonRejects e) →
         summaryLevel (modelConfig (mask session)) = Incremental →
         compressMessageLengthThreshold (modelConfig (mask session))
           ≤ String.length (content (h message)) →
         indexOf (messages session) message = Some i →
         Part002.result
           (Part002.summarizeMessageIncrementally stores net h message
              session)
         = Rejected e)
    ∧ (∀ e i,
         (∀ req, net req = FetchJsonRejects e) →
         indexOf (messages session) message = Some i →
         Part001.unhandled
           (Part001.summarizeMessage stores net h message session)
         = Some e).
Proof.
  intros K L stores net h message session Hnet.
  split; [|split; [|split; [|split; [|split; [|split]]]]].
  - by apply CompressionFacts.part002_unusable_heap.
  - by apply CompressionFacts.part001_unusable_heap.
  - unfold Part001.summarizeMessage. by destruct (Part001.response _).
  - apply CompressionFacts.part002_resolves.
  - intros Hrej.
    unfold Part001.summarizeMessage, Part001.summarizeMessageIncrementally.
    destruct (indexOf _ _) as [i|]; [|done].
    cbn [Part001.requestChat reply request Part001.response Part001.sent].
    destruct (net _) as [e| |r] eqn:E; [by apply Hrej in E|done..].
  - intros e i Hrej Hlevel Hlen Hi.
    unfold Part002.summarizeMessageIncrementally.
    rewrite Hlevel, bool_decide_eq_true_2 by done. cbn [negb].
    rewrite bool_decide_eq_false_2 by lia. rewrite Hi.
    cbn [Part002.requestChat reply request]. by rewrite Hrej.
  - intros e i Hrej Hi.
    unfold Part001.summarizeMessage, Part001.summarizeMessageIncrementally.
    rewrite Hi.
    cbn [Part001.requestChat reply request Part001.response Part001.sent].
    by rewrite Hrej.
Qed.

Lemma C9_failed_summary_leaves_message_witness :
  Part002.heap
    (@Part002.summarizeMessageIncrementally exampleConstant exampleLocale
       exampleStores (λ _, FetchJsonRejects (Failure "offline"))
       exampleHeap 1 (exampleSession 5 [0; 1]))
  = exampleHeap
  ∧ Part002.result
      (@Part002.summarizeMessageIncrementally exampleConstant exampleLocale
         exampleStores (λ _, FetchJsonRejects (Failure "offline"))
         exampleHeap 1 (exampleSession 5 [0; 1]))
    = Rejected (Failure "offline")
  ∧ Part001.unhandled
      (@Part001.summarizeMessage exampleConstant exampleLocale
         exampleStores (λ _, FetchJsonRejects (Failure "offline"))
         exampleHeap 1 (exampleSession 5 [0; 1]))
    = Some (Failure "offline").
Proof.
  destruct (C9_failed_summary_leaves_message exampleConstant exampleLocale
              exampleStores (λ _, FetchJsonRejects (Failure "offline"))
              exampleHeap 1 (exampleSession 5 [0; 1]))
    as (Hheap & _ & _ & _ & _ & Hrejects & Hunhandled).
  - intros req. exact I.
  - split; [exact Hheap|]. split.
    + apply (Hrejects (Failure "offline") 1);
        [reflexivity|reflexivity|vm_compute; lia|reflexivity].
    + apply (Hunhandled (Failure "offline") 1); reflexivity.
Defined.

(** Claim C9 as stated fails on part_002 when the fetch of the sub-request
    rejects: the message is unchanged, but the rejection reaches the
    caller through the returned promise. *)
Lemma C9_counterexample :
  ¬ failure_absorbed
      (@Part002.summarizeMessageIncrementally exampleConstant exampleLocale
         exampleStores (λ _, FetchJsonRejects (Failure "offline"))
         exampleHeap 1 (exampleSession 5 [0; 1]))
      exampleHeap.
Proof.
  intros [_ [l Hl]]. vm_compute in Hl. discriminate Hl.
Qed.

(** ** The streaming transport *)

Lemma string_length_app (s t : string) :
  String.length (s +:+ t) = String.length s + String.length t.
Proof.
  induction s as [|a s IH]; [done|].
  change (S (String.length (s +:+ t)) = S (String.length s + String.length t)).
  by rewrite IH.
Qed.

Lemma progress_ordered n calls k : progress n calls k → ordered n calls.
Proof. induction 1; by constructor. Qed.

Lemma progress_ordered_last n calls k t :
  progress n calls k → k ≤ String.length t → ordered n (calls ++ [(t, true)]).
Proof. induction 1; intros Hk; cbn; constructor; auto. Qed.

Lemma progress_le n calls k : progress n calls k → n ≤ k.
Proof. induction 1; lia. Qed.

Lemma ordered_weaken n n' calls : n' ≤ n → ordered n calls → ordered n' calls.
Proof. intros Hle H. destruct H; constructor; auto; lia. Qed.

Lemma ordered_lower_bound n calls :
  ordered n calls → Forall (λ c, n ≤ String.length c.1) calls.
Proof.
  induction 1 as [n|n t Hn|n t calls Hn Hord IH]; repeat constructor; auto.
  eapply Forall_impl; [exact IH|]. cbn. intros c Hc. lia.
Qed.

Lemma ordered_flags n calls :
  ordered n calls →
  ∃ k, calls.*2 = replicate k false ∨ calls.*2 = replicate k false ++ [true].
Proof.
  induction 1 as [n|n t Hn|n t calls Hn Hord [k IH]].
  - exists 0. by left.
  - exists 0. by right.
  - exists (S k). cbn. destruct IH as [-> | ->]; [by left|by right].
Qed.

Lemma ordered_sorted n calls :
  ordered n calls → StronglySorted le (String.length <$> calls.*1).
Proof.
  induction 1 as [n|n t Hn|n t calls Hn Hord IH]; cbn.
  - constructor.
  - repeat constructor.
  - constructor; [done|]. apply ordered_lower_bound in Hord.
    rewrite <- list_fmap_compose. apply Forall_fmap.
    eapply Forall_impl; [exact Hord|]. by intros [? ?].
Qed.

Lemma onMessage_calls_app tr1 tr2 :
  onMessage_calls (tr1 ++ tr2) = onMessage_calls tr1 ++ onMessage_calls tr2.
Proof. apply omap_app. Qed.

Lemma terminal_calls_app tr1 tr2 :
  terminal_calls (tr1 ++ tr2) = terminal_calls tr1 ++ terminal_calls tr2.
Proof. apply filter_app. Qed.

Ltac eff_unfold :=
  unfold mbind, mret, Eff_bind, Eff_ret, try_catch, emit, throw, when,
    setTimeout, clearTimeout, fires, disarm, callback, run, late, noTimers,
    idle, awaitFetch.

Lemma late_nil ts : armed ts = [] → late ts = [].
Proof. unfold late. by intros ->. Qed.

Lemma disarm_fresh n cb :
  disarm n {| armed := [] ++ [(n, cb)]; next_id := S n |} = idle (S n).
Proof.
  unfold disarm, idle. cbn. by rewrite decide_False by naive_solver.
Qed.

Module StreamFacts.
Section WithConstants.
Context `{!Constant} `{!Tiktoken} `{!TextDecoder}.

Lemma callback_idle nP text :
  callback (Part003.idleCallback nP text) = idleEvents nP text.
Proof. reflexivity. Qed.

(** The equations of the read loop, one per behaviour of the read. *)
Lemma readLoop_stalls nP d text n :
  Part003.readLoop nP d text ReadStalls (idle n)
  = (idleEvents nP text, idle (S n), Throw AbortError).
Proof.
  cbn [Part003.readLoop]. eff_unfold. cbn -[Part003.idleCallback].
  rewrite decide_True by done. rewrite decide_False by naive_solver.
  cbn. by rewrite app_nil_r.
Qed.

Lemma readLoop_rejects nP d text e n :
  Part003.readLoop nP d text (ReadRejects e) (idle n)
  = ([], {| armed := [(n, idleEvents nP text)]; next_id := S n |}, Throw e).
Proof. reflexivity. Qed.

Lemma readLoop_end nP d text content rest n :
  value content = None →
  Part003.readLoop nP d text (Read content rest) (idle n)
  = ([], idle (S n), Normal text).
Proof.
  intros Hv. cbn [Part003.readLoop]. rewrite Hv. eff_unfold.
  cbn -[Part003.idleCallback]. by rewrite decide_False by naive_solver.
Qed.

Lemma readLoop_last nP d text content rest n v tx d' :
  value content = Some v → decode d v = (tx, d') → done content = true →
  Part003.readLoop nP d text (Read content rest) (idle n)
  = ([ OnMessage (text +:+ tx) false (Some nP) None ], idle (S n),
     Normal (text +:+ tx)).
Proof.
  intros Hv Hd Hdone. cbn [Part003.readLoop]. rewrite Hv, Hd, Hdone.
  eff_unfold. cbn -[Part003.idleCallback].
  by rewrite decide_False by naive_solver.
Qed.

Lemma readLoop_chunk nP d text content rest n v tx d' :
  value content = Some v → decode d v = (tx, d') → done content = false →
  Part003.readLoop nP d text (Read content rest) (idle n)
  = let '(evs, ts, r) :=
      Part003.readLoop nP d' (text +:+ tx) rest (idle (S n)) in
    (OnMessage (text +:+ tx) false (Some nP) None :: evs, ts, r).
Proof.
  intros Hv Hd Hdone. cbn [Part003.readLoop]. rewrite Hv, Hd, Hdone.
  eff_unfold. cbn -[Part003.idleCallback Part003.readLoop].
  rewrite decide_False by naive_solver. cbn -[Part003.readLoop].
  unfold idle.
  by destruct (Part003.readLoop nP d' (text +:+ tx) rest _) as [[evs ts] [t'|e]].
Qed.

End WithConstants.
End StreamFacts.

Module StreamTheory.
Section WithConstants.
Context `{!Constant} `{!Tiktoken} `{!TextDecoder}.

(** What a run of the loop from a state without armed timers looks like.
    If the loop is left normally, no timer is left armed and there were
    only intermediate calls.  If it is left by an exception, the loop and
    the timer it may leave armed report [done = true] exactly once. *)
Lemma readLoop_inv nP reader : ∀ d text n,
  match Part003.readLoop nP d text reader (idle n) with
  | (evs, ts, Normal t') =>
      armed ts = [] ∧ read_interrupted reader = false
      ∧ progress (String.length text) (onMessage_calls evs) (String.length t')
      ∧ terminal_calls evs = []
  | (evs, ts, Throw _) =>
      read_interrupted reader = true
      ∧ ordered (String.length text) (onMessage_calls (evs ++ late ts))
      ∧ length (terminal_calls (evs ++ late ts)) = 1
  end.
Proof.
  induction reader as [content rest IH|e|]; intros d text n.
  - destruct (value content) as [v|] eqn:Hv.
    2:{ rewrite (StreamFacts.readLoop_end _ _ _ _ _ _ Hv).
        cbn [read_interrupted]. rewrite Hv. repeat split. constructor. }
    destruct (decode d v) as [tx d'] eqn:Hd.
    assert (String.length text ≤ String.length (text +:+ tx)) as Hle
      by (rewrite string_length_app; lia).
    destruct (done content) eqn:Hdone.
    + rewrite (StreamFacts.readLoop_last _ _ _ _ _ _ _ _ _ Hv Hd Hdone).
      cbn [read_interrupted]. rewrite Hv, Hdone. repeat split.
      constructor; [done|constructor].
    + rewrite (StreamFacts.readLoop_chunk _ _ _ _ _ _ _ _ _ Hv Hd Hdone).
      cbn [read_interrupted]. rewrite Hv, Hdone.
      specialize (IH d' (text +:+ tx) (S n)).
      destruct (Part003.readLoop nP d' (text +:+ tx) rest (idle (S n)))
        as [[evs ts] [t'|e]].
      * destruct IH as (Ha & Hi & Hp & Ht). repeat split; try done.
        cbn. by constructor.
      * destruct IH as (Hi & Ho & Ht). repeat split; try done.
        cbn. by constructor.
  - rewrite StreamFacts.readLoop_rejects. repeat split.
    cbn. by constructor.
  - rewrite StreamFacts.readLoop_stalls. repeat split.
    cbn. by constructor.
Qed.

Lemma readAll_inv nP body n :
  match Part003.readAll nP body (idle n) with
  | (evs, ts, Normal t') =>
      armed ts = [] ∧ from_option read_interrupted false body = false
      ∧ progress 0 (onMessage_calls evs) (String.length t')
      ∧ terminal_calls evs = []
  | (evs, ts, Throw _) =>
      from_option read_interrupted false body = true
      ∧ ordered 0 (onMessage_calls (evs ++ late ts))
      ∧ length (terminal_calls (evs ++ late ts)) = 1
  end.
Proof.
  destruct body as [reader|].
  - apply (readLoop_inv nP reader newTextDecoder "" n).
  - cbn [Part003.readAll]. eff_unfold. cbn -[Part003.idleCallback].
    rewrite decide_False by naive_solver. repeat split. constructor.
Qed.

(** The trace of a call whose response is a success. *)
Lemma requestChatStream_ok stores messages overrideModel onController res :
  ok res = true →
  let nP := length (encode (String.concat newline (content <$> messages))) in
  Part003.requestChatStream stores messages overrideModel onController
    (Responds res)
  = Fetch (Part003.makeRequestParam stores messages
             (Some (streamOptions overrideModel)))
    :: (if onController then [OnController] else [])
    ++ match Part003.readAll nP (body res) (idle 1) with
       | (evs, ts, Normal t') =>
           evs ++ [ OnMessage t' true (Some nP) (Some (length (encode t')));
                    Abort ] ++ late ts
       | (evs, ts, Throw e) => evs ++ [ OnError e None ] ++ late ts
       end.
Proof.
  intros Hok nP. unfold Part003.requestChatStream, Part003.finish.
  eff_unfold.
  cbn -[ok encode Part003.readAll Part003.makeRequestParam].
  rewrite Hok, decide_False by naive_solver. fold nP.
  change {| armed := []; next_id := 1 |} with (idle 1).
  destruct onController;
    cbn -[ok encode Part003.readAll Part003.makeRequestParam];
    destruct (Part003.readAll nP (body res) (idle 1)) as [[evs ts] [t'|e]];
    cbn; by rewrite <- ?app_assoc.
Qed.

(** The trace of a call whose response is not a success. *)
Lemma requestChatStream_not_ok stores messages overrideModel onController res :
  ok res = false →
  Part003.requestChatStream stores messages overrideModel onController
    (Responds res)
  = [ Fetch (Part003.makeRequestParam stores messages
               (Some (streamOptions overrideModel)));
      OnError (NewError (if bool_decide (status res = 401)
                         then "Unauthorized" else "Stream Error"))
              (Some (status res)) ].
Proof.
  intros Hok. unfold Part003.requestChatStream. eff_unfold.
  cbn -[ok encode Part003.readAll Part003.makeRequestParam].
  rewrite Hok, decide_False by naive_solver.
  by destruct (bool_decide (status res = 401)).
Qed.

Lemma requestChatStream_ordered stores messages overrideModel onController net :
  ordered 0 (onMessage_calls
    (Part003.requestChatStream stores messages overrideModel
       onController net)).
Proof.
  destruct net as [res|e|]; [|constructor..].
  destruct (ok res) eqn:Hok.
  - rewrite (requestChatStream_ok _ _ _ _ _ Hok). cbn zeta.
    set (nP := length (encode _)).
    pose proof (readAll_inv nP (body res) 1) as Hr.
    change (Fetch ?r :: ?l) with ([Fetch r] ++ l).
    rewrite !onMessage_calls_app.
    replace (onMessage_calls (if onController then [OnController] else []))
      with (@nil (string * bool)) by by destruct onController.
    destruct (Part003.readAll nP (body res) (idle 1)) as [[evs ts] [t'|e]].
    + destruct Hr as (Ha & _ & Hp & _). rewrite (late_nil _ Ha), app_nil_r.
      rewrite !onMessage_calls_app. cbn.
      by eapply progress_ordered_last.
    + destruct Hr as (_ & Ho & _).
      rewrite onMessage_calls_app in Ho.
      rewrite !onMessage_calls_app. by cbn.
  - rewrite (requestChatStream_not_ok _ _ _ _ _ Hok). constructor.
Qed.

Lemma requestChatStream_terminal stores messages overrideModel onController net :
  length (terminal_calls
    (Part003.requestChatStream stores messages overrideModel
       onController net))
  = if stream_interrupted net then 2 else 1.
Proof.
  destruct net as [res|e|]; [|done..].
  unfold stream_interrupted. destruct (ok res) eqn:Hok.
  - rewrite (requestChatStream_ok _ _ _ _ _ Hok). cbn zeta.
    set (nP := length (encode _)).
    pose proof (readAll_inv nP (body res) 1) as Hr.
    change (Fetch ?r :: ?l) with ([Fetch r] ++ l).
    rewrite !terminal_calls_app.
    replace (terminal_calls (if onController then [OnController] else []))
      with (@nil Event) by by destruct onController.
    destruct (Part003.readAll nP (body res) (idle 1)) as [[evs ts] [t'|e]].
    + destruct Hr as (Ha & -> & _ & Ht). rewrite (late_nil _ Ha), app_nil_r.
      rewrite !terminal_calls_app, Ht. reflexivity.
    + destruct Hr as (-> & _ & Ht).
      rewrite terminal_calls_app, length_app in Ht.
      rewrite !terminal_calls_app, !length_app.
      change (terminal_calls [Fetch ?r]) with (@nil Event).
      change (terminal_calls [OnError e None]) with [OnError e None].
      cbn [length andb]. lia.
  - rewrite (requestChatStream_not_ok _ _ _ _ _ Hok). reflexivity.
Qed.

End WithConstants.
End StreamTheory.

(** The same count for the stream without token counts (part_000,
    part_001, part_002). *)
Module PlainStreamTheory.
Section WithDecoder.
Context `{!TextDecoder}.

Lemma plain_readLoop_stalls d text n :
  Stream.readLoop d text ReadStalls (idle n)
  = (plainIdleEvents text, idle (S n), Throw AbortError).
Proof.
  cbn [Stream.readLoop]. eff_unfold. cbn.
  rewrite decide_True by done. rewrite decide_False by naive_solver.
  reflexivity.
Qed.

Lemma plain_readLoop_rejects d text e n :
  Stream.readLoop d text (ReadRejects e) (idle n)
  = ([], {| armed := [(n, plainIdleEvents text)]; next_id := S n |}, Throw e).
Proof. reflexivity. Qed.

Lemma plain_readLoop_end d text content rest n :
  value content = None →
  Stream.readLoop d text (Read content rest) (idle n)
  = ([], idle (S n), Normal text).
Proof.
  intros Hv. cbn [Stream.readLoop]. rewrite Hv. eff_unfold.
  cbn. by rewrite decide_False by naive_solver.
Qed.

Lemma plain_readLoop_last d text content rest n v tx d' :
  value content = Some v → decode d v = (tx, d') → done content = true →
  Stream.readLoop d text (Read content rest) (idle n)
  = ([ OnMessage (text +:+ tx) false None None ], idle (S n),
     Normal (text +:+ tx)).
Proof.
  intros Hv Hd Hdone. cbn [Stream.readLoop]. rewrite Hv, Hd, Hdone.
  eff_unfold. cbn. by rewrite decide_False by naive_solver.
Qed.

Lemma plain_readLoop_chunk d text content rest n v tx d' :
  value content = Some v → decode d v = (tx, d') → done content = false →
  Stream.readLoop d text (Read content rest) (idle n)
  = let '(evs, ts, r) := Stream.readLoop d' (text +:+ tx) rest (idle (S n)) in
    (OnMessage (text +:+ tx) false None None :: evs, ts, r).
Proof.
  intros Hv Hd Hdone. cbn [Stream.readLoop]. rewrite Hv, Hd, Hdone.
  eff_unfold. cbn -[Stream.readLoop].
  rewrite decide_False by naive_solver. cbn -[Stream.readLoop].
  unfold idle.
  by destruct (Stream.readLoop d' (text +:+ tx) rest _) as [[evs ts] [t'|e]].
Qed.

Lemma plain_readLoop_inv reader : ∀ d text n,
  match Stream.readLoop d text reader (idle n) with
  | (evs, ts, Normal t') =>
      armed ts = [] ∧ read_interrupted reader = false
      ∧ terminal_calls evs = []
  | (evs, ts, Throw _) =>
      read_interrupted reader = true
      ∧ length (terminal_calls (evs ++ late ts)) = 1
  end.
Proof.
  induction reader as [content rest IH|e|]; intros d text n.
  - destruct (value content) as [v|] eqn:Hv.
    2:{ rewrite (plain_readLoop_end _ _ _ _ _ Hv).
        cbn [read_interrupted]. by rewrite Hv. }
    destruct (decode d v) as [tx d'] eqn:Hd.
    destruct (done content) eqn:Hdone.
    + rewrite (plain_readLoop_last _ _ _ _ _ _ _ _ Hv Hd Hdone).
      cbn [read_interrupted]. by rewrite Hv, Hdone.
    + rewrite (plain_readLoop_chunk _ _ _ _ _ _ _ _ Hv Hd Hdone).
      cbn [read_interrupted]. rewrite Hv, Hdone.
      specialize (IH d' (text +:+ tx) (S n)).
      by destruct (Stream.readLoop d' (text +:+ tx) rest (idle (S n)))
        as [[evs ts] [t'|e]].
  - by rewrite plain_readLoop_rejects.
  - by rewrite plain_readLoop_stalls.
Qed.

Lemma plain_readAll_inv body n :
  match Stream.readAll body (idle n) with
  | (evs, ts, Normal t') =>
      armed ts = [] ∧ from_option read_interrupted false body = false
      ∧ terminal_calls evs = []
  | (evs, ts, Throw _) =>
      from_option read_interrupted false body = true
      ∧ length (terminal_calls (evs ++ late ts)) = 1
  end.
Proof.
  destruct body as [reader|].
  - apply (plain_readLoop_inv reader newTextDecoder "" n).
  - cbn [Stream.readAll]. eff_unfold. cbn.
    by rewrite decide_False by naive_solver.
Qed.

Lemma plain_requestChatStream_ok req onController res :
  ok res = true →
  Stream.requestChatStream req onController (Responds res)
  = Fetch req
    :: (if onController then [OnController] else [])
    ++ match Stream.readAll (body res) (idle 1) with
       | (evs, ts, Normal t') =>
           evs ++ [ OnMessage t' true None None; Abort ] ++ late ts
       | (evs, ts, Throw e) => evs ++ [ OnError e None ] ++ late ts
       end.
Proof.
  intros Hok. unfold Stream.requestChatStream, Stream.finish.
  eff_unfold. cbn -[ok Stream.readAll].
  rewrite Hok, decide_False by naive_solver.
  change {| armed := []; next_id := 1 |} with (idle 1).
  destruct onController; cbn -[ok Stream.readAll];
    destruct (Stream.readAll (body res) (idle 1)) as [[evs ts] [t'|e]];
    cbn; by rewrite <- ?app_assoc.
Qed.

Lemma plain_requestChatStream_not_ok req onController res :
  ok res = false →
  Stream.requestChatStream req onController (Responds res)
  = [ Fetch req;
      OnError (NewError (if bool_decide (status res = 401)
                         then "Unauthorized" else "Stream Error"))
              (Some (status res)) ].
Proof.
  intros Hok. unfold Stream.requestChatStream. eff_unfold.
  cbn -[ok Stream.readAll].
  rewrite Hok, decide_False by naive_solver.
  by destruct (bool_decide (status res = 401)).
Qed.

Lemma plain_requestChatStream_terminal req onController net :
  length (terminal_calls (Stream.requestChatStream req onController net))
  = if stream_interrupted net then 2 else 1.
Proof.
  destruct net as [res|e|]; [|done..].
  unfold stream_interrupted. destruct (ok res) eqn:Hok.
  - rewrite (plain_requestChatStream_ok _ _ _ Hok).
    pose proof (plain_readAll_inv (body res) 1) as Hr.
    change (Fetch ?r :: ?l) with ([Fetch r] ++ l).
    rewrite !terminal_calls_app.
    replace (terminal_calls (if onController then [OnController] else []))
      with (@nil Event) by by destruct onController.
    destruct (Stream.readAll (body res) (idle 1)) as [[evs ts] [t'|e]].
    + destruct Hr as (Ha & -> & Ht). rewrite (late_nil _ Ha), app_nil_r.
      rewrite !terminal_calls_app, Ht. reflexivity.
    + destruct Hr as (-> & Ht).
      rewrite terminal_calls_app, length_app in Ht.
      rewrite !terminal_calls_app, !length_app.
      change (terminal_calls [Fetch ?r]) with (@nil Event).
      change (terminal_calls [OnError e None]) with [OnError e None].
      cbn [length andb]. lia.
  - rewrite (plain_requestChatStream_not_ok _ _ _ Hok). reflexivity.
Qed.

End WithDecoder.
End PlainStreamTheory.

(** Claim C6.  When the response status is 401, [onError] is invoked
    exactly once, with the error [Unauthorized] and the status code 401,
    and [onMessage] is not invoked at all, whatever the body. *)
Theorem C6_unauthorized_reports_one_error :
  ∀ (K : Constant) (T : Tiktoken) (D : TextDecoder) (stores : Stores)
    (messages : list Message) (overrideModel : option string)
    (onController : bool) (body : option BodyScript),
    let tr := Part003.requestChatStream stores messages overrideModel
                onController (Responds {| status := 401; body := body |}) in
    onError_calls tr = [ (NewError "Unauthorized", Some 401) ]
    ∧ onMessage_calls tr = [].
Proof.
  intros. subst tr.
  rewrite StreamTheory.requestChatStream_not_ok by reflexivity.
  split; reflexivity.
Qed.

(** Claim C4.  For a successful response that delivers the chunks
    [Hel] and [lo] and then the end of the stream, [onMessage] is invoked
    with ([Hel], false), ([Hello], false) and finally ([Hello], true),
    and [onError] is never invoked. *)
Theorem C4_two_chunks_then_end :
  ∀ (K : Constant) (T : Tiktoken) (D : TextDecoder) (stores : Stores)
    (messages : list Message) (overrideModel : option string)
    (onController : bool) (res : Response) (rest : BodyScript)
    (d1 d2 : DecoderState),
    ok res = true →
    body res = Some (Read (chunk "Hel") (Read (chunk "lo")
                       (Read endOfStream rest))) →
    decode newTextDecoder (String.list_byte_of_string "Hel") = ("Hel", d1) →
    decode d1 (String.list_byte_of_string "lo") = ("lo", d2) →
    let tr := Part003.requestChatStream stores messages overrideModel
                onController (Responds res) in
    onMessage_calls tr = [ ("Hel", false); ("Hello", false); ("Hello", true) ]
    ∧ onError_calls tr = [].
Proof.
  intros K T D stores messages overrideModel onController res rest d1 d2
    Hok Hbody Hd1 Hd2 tr.
  subst tr. rewrite (StreamTheory.requestChatStream_ok _ _ _ _ _ Hok).
  cbn zeta. rewrite Hbody. cbn [Part003.readAll].
  erewrite StreamFacts.readLoop_chunk; [|reflexivity|exact Hd1|reflexivity].
  erewrite StreamFacts.readLoop_chunk; [|reflexivity|exact Hd2|reflexivity].
  rewrite StreamFacts.readLoop_end by reflexivity.
  destruct onController; split; reflexivity.
Qed.

Lemma C4_two_chunks_then_end_witness :
  onMessage_calls
    (@Part003.requestChatStream exampleConstant exampleTiktoken asciiDecoder
       exampleStores [] None true
       (Responds {| status := 200;
                    body := Some (Read (chunk "Hel") (Read (chunk "lo")
                                    (Read endOfStream ReadStalls))) |}))
  = [ ("Hel", false); ("Hello", false); ("Hello", true) ].
Proof.
  apply (C4_two_chunks_then_end exampleConstant exampleTiktoken
           asciiDecoder exampleStores [] None true
           {| status := 200;
              body := Some (Read (chunk "Hel") (Read (chunk "lo")
                              (Read endOfStream ReadStalls))) |}
           ReadStalls () ()); reflexivity.
Defined.

(** Claim C5.  In every call the [onMessage] invocations are a run of
    intermediate ones ([done = false]) followed by at most one final one
    ([done = true]), and the text passed never gets shorter from one
    invocation to the next.  This includes the invocation made by an idle
    timer that fires during a read or is left armed by a rejected read. *)
Theorem C5_onMessage_order_and_growth :
  ∀ (K : Constant) (T : Tiktoken) (D : TextDecoder) (stores : Stores)
    (messages : list Message) (overrideModel : option string)
    (onController : bool) (net : FetchOutcome),
    let calls := onMessage_calls
                   (Part003.requestChatStream stores messages overrideModel
                      onController net) in
    (∃ k, calls.*2 = replicate k false
          ∨ calls.*2 = replicate k false ++ [true])
    ∧ StronglySorted le (String.length <$> calls.*1).
Proof.
  intros K T D stores messages overrideModel onController net calls.
  pose proof (StreamTheory.requestChatStream_ordered stores messages
                overrideModel onController net) as Hord.
  fold calls in Hord. split.
  - by eapply ordered_flags.
  - by eapply ordered_sorted.
Qed.

(** Claim C1 (the code departs from it).  A call ends with exactly one
    terminal callback, [onMessage(..., true)] or [onError], unless the
    read loop is left by an exception; then there are two.  When the idle
    timer fires during a read, its [finish] reports [done = true] and
    aborts, the aborted read rejects and the [catch] reports [onError] as
    well.  When a read rejects on its own account (a network failure, or
    the caller aborting the controller), the [catch] reports [onError], but
    the idle timer armed for that read was never cleared and reports
    [done = true] when it fires.  This holds for the stream of part_003
    and for that of part_001; the last parts evaluate both on a response
    that delivers [Hel] and then stalls, and on one that delivers [Hel]
    and then rejects. *)
Theorem C1_interrupted_stream_reports_twice :
  (∀ (K : Constant) (T : Tiktoken) (D : TextDecoder) (stores : Stores)
     (messages : list Message) (overrideModel : option string)
     (onController : bool) (net : FetchOutcome),
     length (terminal_calls
       (Part003.requestChatStream stores messages overrideModel
          onController net))
     = if stream_interrupted net then 2 else 1)
  ∧ (∀ (K : Constant) (D : TextDecoder) (stores : Stores)
       (messages : list Message) (overrideModel : option string)
       (onController : bool) (net : FetchOutcome),
       length (terminal_calls
         (Part001.requestChatStream stores messages overrideModel
            onController net))
       = if stream_interrupted net then 2 else 1)
  ∧ terminal_calls
      (@Part003.requestChatStream exampleConstant exampleTiktoken
         asciiDecoder exampleStores [] None true stalledAfterHel)
    = [ OnMessage "Hel" true (Some 0) (Some 3); OnError AbortError None ]
  ∧ terminal_calls
      (@Part001.requestChatStream exampleConstant asciiDecoder
         exampleStores [] None true stalledAfterHel)
    = [ OnMessage "Hel" true None None; OnError AbortError None ]
  ∧ terminal_calls
      (@Part003.requestChatStream exampleConstant exampleTiktoken
         asciiDecoder exampleStores [] None true abortedAfterHel)
    = [ OnError AbortError None; OnMessage "Hel" true (Some 0) (Some 3) ].
Proof.
  split; [|split; [|split; [|split]]].
  - intros. apply StreamTheory.requestChatStream_terminal.
  - intros. apply PlainStreamTheory.plain_requestChatStream_terminal.
  - reflexivity.
  - reflexivity.
  - reflexivity.
Qed.

(** * Further properties of the code *)

(** ** ControllerPool *)

Lemma pretty_N_char_no_comma x : pretty_N_char x ≠ comma.
Proof. unfold pretty_N_char. by repeat case_match. Qed.

Lemma pretty_N_go_no_comma x : ∀ s,
  occurs comma s = false → occurs comma (pretty_N_go x s) = false.
Proof.
  induction (N.lt_wf_0 x) as [x _ IH]; intros s Hs.
  destruct (decide (x = 0)%N) as [->|Hx]; [by rewrite pretty_N_go_0|].
  rewrite pretty_N_go_step by lia. apply IH.
  - apply N.div_lt; lia.
  - cbn [occurs]. rewrite Hs, orb_false_r.
    apply Ascii.eqb_neq, pretty_N_char_no_comma.
Qed.

Lemma pretty_N_no_comma (x : N) : occurs comma (pretty x) = false.
Proof.
  unfold pretty, pretty_N. case_decide; [done|].
  by apply pretty_N_go_no_comma.
Qed.

Lemma pretty_Z_no_comma (x : Z) : occurs comma (pretty x) = false.
Proof.
  destruct x as [|p|p]; [done|apply pretty_N_no_comma|].
  unfold pretty, pretty_Z. cbn [String.append occurs].
  fold (pretty (N.pos p)). apply pretty_N_no_comma.
Qed.

Lemma append_comma_inj (a a' b b' : string) :
  occurs comma a = false → occurs comma a' = false →
  a +:+ String comma b = a' +:+ String comma b' → a = a' ∧ b = b'.
Proof.
  revert a'. induction a as [|x a IH]; intros [|x' a']; cbn; intros Ha Ha' Heq.
  - by inversion Heq.
  - inversion Heq; subst. by rewrite Ascii.eqb_refl in Ha'.
  - inversion Heq; subst. by rewrite Ascii.eqb_refl in Ha.
  - inversion Heq; subst.
    apply orb_false_elim in Ha as [_ Ha]. apply orb_false_elim in Ha' as [_ Ha'].
    destruct (IH a' Ha Ha' H1) as [-> ->]. done.
Qed.

(** Different pairs have different keys. *)
Lemma key_ne (c m c' m' : Z) :
  (c, m) ≠ (c', m') → ControllerPool.key c m ≠ ControllerPool.key c' m'.
Proof.
  intros Hne Heq. apply Hne. unfold ControllerPool.key in Heq.
  apply append_comma_inj in Heq as [Hc Hm]; try apply pretty_Z_no_comma.
  apply (inj pretty) in Hc, Hm. congruence.
Qed.

(** X1.  [key] is injective: two pairs of indices with the same key are
    the same pair. *)
Theorem ControllerPool_key_inj (c m c' m' : Z) :
  ControllerPool.key c m = ControllerPool.key c' m' → c = c' ∧ m = m'.
Proof.
  unfold ControllerPool.key. intros Heq.
  apply append_comma_inj in Heq as [Hc Hm]; try apply pretty_Z_no_comma.
  split; by apply (inj pretty).
Qed.

Lemma ControllerPool_key_inj_witness : (3 = 3 ∧ 4 = 4)%Z.
Proof. apply (ControllerPool_key_inj 3 4 3 4). reflexivity. Defined.

(** X2.  A controller registered under a pair is the one [stop] aborts
    for that pair, and registering a second controller under the same
    pair replaces the first: [stop] then aborts the second only, and the
    first is no longer in the registry. *)
Theorem ControllerPool_add_replaces_then_stop :
  ∀ (c m : Z) (h1 h2 : AbortController) (st : ControllerPool.State),
    let st1 := (ControllerPool.addController c m h1 st).2 in
    let st2 := (ControllerPool.addController c m h2 st1).2 in
    ControllerPool.stop c m st1 = Normal (ControllerPool.abort h1 st1)
    ∧ ControllerPool.stop c m st2 = Normal (ControllerPool.abort h2 st2)
    ∧ ControllerPool.aborts (ControllerPool.abort h2 st2)
      = ControllerPool.aborts st ++ [h2]
    ∧ ControllerPool.controllers st2
      = <[ControllerPool.key c m := h2]> (ControllerPool.controllers st).
Proof.
  intros c m h1 h2 st st1 st2. split; [|split; [|split]].
  - apply ControllerPoolFacts.stop_registered. apply lookup_insert_eq.
  - apply ControllerPoolFacts.stop_registered. apply lookup_insert_eq.
  - reflexivity.
  - cbn. apply insert_insert_eq.
Qed.

(** X3.  Registering or removing one pair leaves every other pair as it
    was: what [stop] finds, and so what it aborts, for a different pair is
    unchanged. *)
Theorem ControllerPool_other_pairs_untouched :
  ∀ (c m c' m' : Z) (h : AbortController) (st : ControllerPool.State),
    (c, m) ≠ (c', m') →
    ControllerPool.controllers (ControllerPool.addController c m h st).2
      !! ControllerPool.key c' m'
      = ControllerPool.controllers st !! ControllerPool.key c' m'
    ∧ ControllerPool.controllers (ControllerPool.remove c m st)
        !! ControllerPool.key c' m'
      = ControllerPool.controllers st !! ControllerPool.key c' m'
    ∧ (∀ st', ControllerPool.stop c' m' st = Normal st' →
         ∃ st'',
           ControllerPool.stop c' m'
             (ControllerPool.addController c m h st).2 = Normal st''
           ∧ ControllerPool.aborts st'' = ControllerPool.aborts st').
Proof.
  intros c m c' m' h st Hne.
  pose proof (key_ne c m c' m' Hne) as Hk.
  split; [|split].
  - cbn. by rewrite lookup_insert_ne.
  - cbn. by rewrite lookup_delete_ne.
  - intros st'. unfold ControllerPool.stop. cbn.
    rewrite lookup_insert_ne by done.
    destruct (ControllerPool.controllers st !! ControllerPool.key c' m');
      cbn; intros [= <-]; eauto.
Qed.

Lemma ControllerPool_other_pairs_untouched_witness :
  ControllerPool.controllers
    (ControllerPool.addController 3 4 7 ControllerPool.empty).2
    !! ControllerPool.key 1 2
  = ControllerPool.controllers ControllerPool.empty !! ControllerPool.key 1 2.
Proof.
  apply (ControllerPool_other_pairs_untouched 3 4 1 2 7 ControllerPool.empty).
  intros [= ? ?].
Defined.

(** X4.  [stopAll] invokes [abort()] once per registration, on exactly
    the controllers that are registered, and changes nothing in the
    registry. *)
Theorem ControllerPool_stopAll_exactly_registered :
  ∀ (st : ControllerPool.State),
    ControllerPool.aborts (ControllerPool.stopAll st)
      = ControllerPool.aborts st ++ ControllerPool.values st
    ∧ (∀ v, v ∈ ControllerPool.values st
            ↔ ∃ k, ControllerPool.controllers st !! k = Some v)
    ∧ length (ControllerPool.values st) = size (ControllerPool.controllers st)
    ∧ ControllerPool.controllers (ControllerPool.stopAll st)
      = ControllerPool.controllers st.
Proof.
  intros st. split; [|split; [|split]].
  - apply ControllerPoolFacts.stopAll_aborts.
  - intros v. unfold ControllerPool.values. rewrite list_elem_of_fmap. split.
    + intros [[k v'] [-> Hin]]. exists k. by apply elem_of_map_to_list.
    + intros [k Hk]. exists (k, v). split; [done|].
      by apply elem_of_map_to_list.
  - unfold ControllerPool.values. by rewrite length_fmap, length_map_to_list.
  - apply ControllerPoolFacts.stopAll_controllers.
Qed.

(** X5.  [hasPending] is true exactly when some pair is registered: it
    is false on the empty registry, true after any [addController], and
    false again once the only registered pair is removed. *)
Theorem ControllerPool_hasPending_iff_registered :
  ∀ (c m : Z) (h : AbortController) (st : ControllerPool.State),
    (ControllerPool.hasPending st = true
     ↔ ∃ k v, ControllerPool.controllers st !! k = Some v)
    ∧ ControllerPool.hasPending ControllerPool.empty = false
    ∧ ControllerPool.hasPending (ControllerPool.addController c m h st).2
      = true
    ∧ ControllerPool.hasPending
        (ControllerPool.remove c m
           (ControllerPool.addController c m h ControllerPool.empty).2)
      = false.
Proof.
  intros c m h st. split; [|split; [|split]].
  - rewrite ControllerPoolFacts.hasPending_nonempty. split.
    + intros Hne. apply map_choose in Hne as (k & v & Hk). eauto.
    + intros (k & v & Hk) Hall. by rewrite Hall in Hk.
  - reflexivity.
  - apply ControllerPoolFacts.hasPending_nonempty. cbn.
    apply insert_non_empty.
  - apply not_true_is_false.
    rewrite ControllerPoolFacts.hasPending_nonempty. cbn.
    rewrite delete_insert_eq, delete_empty. naive_solver.
Qed.

(** X6.  [remove] of a pair that is not registered changes nothing,
    [remove] after [addController] of a pair that was not registered gives
    back the state from before, and a second [remove] changes nothing. *)
Theorem ControllerPool_remove_restores :
  ∀ (c m : Z) (h : AbortController) (st : ControllerPool.State),
    ControllerPool.controllers st !! ControllerPool.key c m = None →
    ControllerPool.remove c m st = st
    ∧ ControllerPool.remove c m (ControllerPool.addController c m h st).2 = st
    ∧ (∀ st0, ControllerPool.remove c m (ControllerPool.remove c m st0)
              = ControllerPool.remove c m st0).
Proof.
  intros c m h [cs ab] Hk. cbn in Hk. unfold ControllerPool.remove. cbn.
  split; [|split].
  - by rewrite delete_id.
  - by rewrite delete_insert_id.
  - intros st0. by rewrite delete_delete_eq.
Qed.

Lemma ControllerPool_remove_restores_witness :
  ControllerPool.remove 3 4
    (ControllerPool.addController 3 4 7 ControllerPool.empty).2
  = ControllerPool.empty.
Proof.
  apply (ControllerPool_remove_restores 3 4 7 ControllerPool.empty).
  reflexivity.
Defined.

(** ** The request assembler *)

(** The model parameters that all revisions of [makeRequestParam] put in
    the request. *)
Lemma buildRequest_parameters sendMessages opts app session :
  let req := buildRequest sendMessages opts (overrideConfig opts app session) in
  ChatRequest.model req
    = (if truthy_string (opts ≫= overrideModel) then opts ≫= overrideModel
       else from_option Some (model app) (model (modelConfig (mask session))))
  ∧ ChatRequest.temperature req
    = from_option Some
        (from_option Some (temperature app)
           (temperature (modelConfig (mask session))))
        (opts ≫= overrideTemperature)
  ∧ ChatRequest.presence_penalty req
    = from_option Some
        (from_option Some (presence_penalty app)
           (presence_penalty (modelConfig (mask session))))
        (opts ≫= overridePresencePenalty)
  ∧ ChatRequest.stream req = opts ≫= opt_stream
  ∧ ChatRequest.messages req = sendMessages.
Proof.
  unfold buildRequest, overrideConfig. cbn.
  destruct (truthy_string (opts ≫= overrideModel));
    destruct (opts ≫= overrideTemperature);
    destruct (opts ≫= overridePresencePenalty); cbn; done.
Qed.

(** X7.  Precedence of the model parameters, in every revision of
    [makeRequestParam]: an explicit override wins over the session's
    value, which wins over the application default, each parameter on its
    own.  An override of the model by the empty string is ignored, while a
    temperature or presence penalty override is applied whenever it is
    given, zero included. *)
Theorem makeRequestParam_override_precedence :
  ∀ (K : Constant) (stores : Stores) (msgs : list Message)
    (opts : option RequestOptions) (req : ChatRequest.t),
    req = Part000.makeRequestParam stores msgs opts
    ∨ req = Part001.makeRequestParam stores msgs opts
    ∨ req = Part002.makeRequestParam stores msgs opts →
    let session := modelConfig (mask (currentSession stores)) in
    let app := appModelConfig stores in
    ChatRequest.model req
      = (if truthy_string (opts ≫= overrideModel) then opts ≫= overrideModel
         else from_option Some (model app) (model session))
    ∧ ChatRequest.temperature req
      = from_option Some
          (from_option Some (temperature app) (temperature session))
          (opts ≫= overrideTemperature)
    ∧ ChatRequest.presence_penalty req
      = from_option Some
          (from_option Some (presence_penalty app) (presence_penalty session))
          (opts ≫= overridePresencePenalty)
    ∧ ChatRequest.stream req = opts ≫= opt_stream.
Proof.
  intros K stores msgs opts req Hreq session app.
  destruct Hreq as [->|[->| ->]];
    unfold Part000.makeRequestParam, Part001.makeRequestParam,
      Part002.makeRequestParam;
    match goal with
    | |- context [buildRequest ?sm ?o (overrideConfig ?o ?a ?s)] =>
        destruct (buildRequest_parameters sm o a s) as (Hm & Ht & Hp & Hs & _)
    end; auto.
Qed.

Lemma makeRequestParam_override_precedence_witness :
  ChatRequest.model
    (@Part001.makeRequestParam exampleConstant exampleStores []
       (Some (streamOptions (Some ""))))
  = Some "gpt-3.5-turbo".
Proof.
  apply (makeRequestParam_override_precedence exampleConstant exampleStores []
           (Some (streamOptions (Some ""))) _).
  right. left. reflexivity.
Defined.

(** X8.  Every revision of [makeRequestParam] sends one entry per
    message, in the order given and with the role of each message; no
    message is dropped, hidden ones included.  part_001 puts its persona
    message in front and part_002 its note on the marker, both with the
    role [system]; part_000 adds nothing. *)
Theorem makeRequestParam_keeps_roles_and_order :
  ∀ (K : Constant) (stores : Stores) (msgs : list Message)
    (opts : option RequestOptions),
    ChatRequest.role <$>
      ChatRequest.messages (Part000.makeRequestParam stores msgs opts)
      = role <$> msgs
    ∧ ChatRequest.role <$>
        ChatRequest.messages (Part001.makeRequestParam stores msgs opts)
      = system :: (role <$> msgs)
    ∧ ChatRequest.role <$>
        ChatRequest.messages (Part002.makeRequestParam stores msgs opts)
      = system :: (role <$> msgs).
Proof.
  intros K stores msgs opts. split; [|split].
  - rewrite AssemblerFacts.part000_messages, <- list_fmap_compose.
    by apply list_fmap_ext.
  - rewrite AssemblerFacts.part001_messages, fmap_cons,
      <- list_fmap_compose.
    reflexivity.
  - rewrite AssemblerFacts.part002_messages, fmap_cons,
      <- list_fmap_compose.
    f_equal; first [ reflexivity | by apply list_fmap_ext ].
Qed.

(** X9.  A message whose [useSummary] flag is on and that has a
    non-empty summary goes out as the marker, a space and the summary in
    part_001 and in part_002; in part_000 it does so at the incremental
    summary level and goes out with its original content at any other
    level. *)
Theorem makeRequestParam_flag_on_sends_summary :
  ∀ (K : Constant) (stores : Stores) (msgs : list Message)
    (opts : option RequestOptions) (i : nat) (m : Message) (s : string),
    msgs !! i = Some m →
    truthy_bool (useSummary m) = true →
    summary m = Some s → s ≠ "" →
    let marked := {| ChatRequest.role := role m;
                     ChatRequest.content :=
                       INCREMENTAL_SUMMARY_PREFIX +:+ " " +:+ s |} in
    ChatRequest.messages (Part001.makeRequestParam stores msgs opts) !! S i
      = Some marked
    ∧ ChatRequest.messages (Part002.makeRequestParam stores msgs opts) !! S i
      = Some marked
    ∧ ChatRequest.messages (Part000.makeRequestParam stores msgs opts) !! i
      = Some (if bool_decide
                   (summaryLevel (modelConfig (mask (currentSession stores)))
                    = Incremental)
              then marked
              else {| ChatRequest.role := role m;
                      ChatRequest.content := content m |}).
Proof.
  intros K stores msgs opts i m s Hi Hflag Hs Hne marked.
  assert (truthy_string (summary m) = true) as Ht.
  { rewrite Hs. cbn. apply negb_true_iff, String.eqb_neq. done. }
  split; [|split].
  - rewrite AssemblerFacts.part001_messages.
    change ((Part001.baseMessage <$> msgs) !! i = Some marked).
    rewrite list_lookup_fmap, Hi. cbn. unfold Part001.baseMessage.
    by rewrite Hflag, Hs.
  - rewrite AssemblerFacts.part002_messages.
    change ((part002_pair <$> msgs) !! i = Some marked).
    rewrite list_lookup_fmap, Hi. cbn. unfold part002_pair.
    by rewrite Ht, Hs.
  - rewrite AssemblerFacts.part000_messages, list_lookup_fmap, Hi. cbn.
    unfold Part000.sendMessage. rewrite Ht, Hs, andb_true_r.
    by destruct (bool_decide _).
Qed.

Lemma makeRequestParam_flag_on_sends_summary_witness :
  ChatRequest.messages
    (@Part001.makeRequestParam exampleConstant exampleStores
       [flagOnMessage] None) !! 1
  = Some {| ChatRequest.role := user;
            ChatRequest.content := "[SUMMARY] short" |}.
Proof.
  exact (proj1 (makeRequestParam_flag_on_sends_summary exampleConstant
                  exampleStores [flagOnMessage] None 0 flagOnMessage "short"
                  eq_refl eq_refl eq_refl ltac:(discriminate))).
Defined.

(** X10.  A message whose [useSummary] flag is on but that has no summary:
    part_001 substitutes all the same and sends the marker followed by the
    text [undefined]; part_002 and part_000 send the original content. *)
Theorem makeRequestParam_flag_on_without_summary :
  ∀ (K : Constant) (stores : Stores) (msgs : list Message)
    (opts : option RequestOptions) (i : nat) (m : Message),
    msgs !! i = Some m →
    truthy_bool (useSummary m) = true →
    summary m = None →
    ChatRequest.messages (Part001.makeRequestParam stores msgs opts) !! S i
      = Some {| ChatRequest.role := role m;
                ChatRequest.content :=
                  INCREMENTAL_SUMMARY_PREFIX +:+ " undefined" |}
    ∧ ChatRequest.messages (Part002.makeRequestParam stores msgs opts) !! S i
      = Some {| ChatRequest.role := role m;
                ChatRequest.content := content m |}
    ∧ ChatRequest.messages (Part000.makeRequestParam stores msgs opts) !! i
      = Some {| ChatRequest.role := role m;
                ChatRequest.content := content m |}.
Proof.
  intros K stores msgs opts i m Hi Hflag Hs. split; [|split].
  - rewrite AssemblerFacts.part001_messages.
    change ((Part001.baseMessage <$> msgs) !! i = Some
      {| ChatRequest.role := role m;
         ChatRequest.content := INCREMENTAL_SUMMARY_PREFIX +:+ " undefined" |}).
    rewrite list_lookup_fmap, Hi. cbn. unfold Part001.baseMessage.
    by rewrite Hflag, Hs.
  - rewrite AssemblerFacts.part002_messages.
    change ((part002_pair <$> msgs) !! i = Some
      {| ChatRequest.role := role m; ChatRequest.content := content m |}).
    rewrite list_lookup_fmap, Hi. cbn. unfold part002_pair.
    by rewrite Hs.
  - rewrite AssemblerFacts.part000_messages, list_lookup_fmap, Hi. cbn.
    unfold Part000.sendMessage. by rewrite Hs, andb_false_r.
Qed.

Lemma makeRequestParam_flag_on_without_summary_witness :
  ChatRequest.messages
    (@Part001.makeRequestParam exampleConstant exampleStores
       [flagOnNoSummary] None) !! 1
  = Some {| ChatRequest.role := user;
            ChatRequest.content := "[SUMMARY] undefined" |}.
Proof.
  exact (proj1 (makeRequestParam_flag_on_without_summary exampleConstant
                  exampleStores [flagOnNoSummary] None 0 flagOnNoSummary
                  eq_refl eq_refl eq_refl)).
Defined.

(** X11.  [requestWithPrompt], in each of the four revisions: the prompt
    is sent as the last message, with the role [user] and its text
    unchanged.  A reply that is not JSON gives the empty text, not an
    error; a JSON reply gives the content of its first choice, or the
    empty text when there is none; a rejected fetch rejects the promise.
    part_000, part_001 and part_002 send [stream: false]; part_003 passes
    no [stream] option, so its request carries none. *)
Theorem requestWithPrompt_sends_prompt_last :
  ∀ (K : Constant) (stores : Stores) (net : ChatRequest.t → FetchJson)
    (msgs : list Message) (prompt now : string)
    (options : option ChatOptions.t) (r : ChatRequest.t * Promise string),
    r = Part000.requestWithPrompt stores net msgs prompt now options
    ∨ r = Part001.requestWithPrompt stores net msgs prompt now options
    ∨ r = Part002.requestWithPrompt stores net msgs prompt now options
    ∨ r = Part003.requestWithPrompt stores net msgs prompt now options →
    last (ChatRequest.messages r.1)
      = Some {| ChatRequest.role := user; ChatRequest.content := prompt |}
    ∧ (net r.1 = JsonFails → r.2 = Resolved "")
    ∧ (∀ response, net r.1 = Json response →
         r.2 = Resolved
                 (default "" (ChatResponse.first_content (Some response))))
    ∧ (∀ e, net r.1 = FetchJsonRejects e → r.2 = Rejected e)
    ∧ ChatRequest.stream
        (Part000.requestWithPrompt stores net msgs prompt now options).1
      = Some false
    ∧ ChatRequest.stream
        (Part001.requestWithPrompt stores net msgs prompt now options).1
      = Some false
    ∧ ChatRequest.stream
        (Part002.requestWithPrompt stores net msgs prompt now options).1
      = Some false
    ∧ ChatRequest.stream
        (Part003.requestWithPrompt stores net msgs prompt now options).1
      = None.
Proof.
  intros K stores net msgs prompt now options r Hr.
  assert (∀ req (p : Promise string),
    p = then_ (awaitJson (net req))
          (λ res, default "" (ChatResponse.first_content res)) →
    (net req = JsonFails → p = Resolved "")
    ∧ (∀ response, net req = Json response →
         p = Resolved
               (default "" (ChatResponse.first_content (Some response))))
    ∧ (∀ e, net req = FetchJsonRejects e → p = Rejected e)) as Hreply.
  { intros req p ->.
    split; [intros ->|split; [intros response ->|intros e ->]];
      reflexivity. }
  assert (∀ req (p : Promise string) (P : Prop),
    p = then_ (awaitJson (net req))
          (λ res, default "" (ChatResponse.first_content res)) →
    P →
    (net req = JsonFails → p = Resolved "")
    ∧ (∀ response, net req = Json response →
         p = Resolved
               (default "" (ChatResponse.first_content (Some response))))
    ∧ (∀ e, net req = FetchJsonRejects e → p = Rejected e)
    ∧ P) as Hrest.
  { intros req p P Hp HP. destruct (Hreply req p Hp) as (H1 & H2 & H3).
    auto. }
  assert (∀ (a : ChatRequest.Msg) l k, last ((a :: l) ++ [k]) = Some k)
    as Hlast by (intros a l k; apply last_snoc).
  destruct Hr as [->|[->|[->| ->]]].
  - split.
    + cbn [fst Part000.requestWithPrompt Part000.requestChat request].
      rewrite AssemblerFacts.part000_messages, fmap_app, list_fmap_singleton,
        last_snoc.
      unfold Part000.sendMessage. cbn. by rewrite andb_false_r.
    + apply Hrest; [reflexivity|]. by repeat split.
  - split.
    + cbn [fst Part001.requestWithPrompt Part001.requestChat request].
      rewrite AssemblerFacts.part001_messages, fmap_app, list_fmap_singleton.
      apply Hlast.
    + apply Hrest; [reflexivity|]. by repeat split.
  - split.
    + cbn [fst Part002.requestWithPrompt Part002.requestChat request].
      rewrite AssemblerFacts.part002_messages, fmap_app, list_fmap_singleton.
      apply Hlast.
    + apply Hrest; [reflexivity|]. by repeat split.
  - split.
    + cbn [fst Part003.requestWithPrompt Part003.requestChat request].
      unfold Part003.makeRequestParam.
      rewrite AssemblerFacts.part000_messages, fmap_app, list_fmap_singleton,
        last_snoc.
      unfold Part000.sendMessage. cbn. by rewrite andb_false_r.
    + apply Hrest; [reflexivity|]. by repeat split.
Qed.

Lemma requestWithPrompt_sends_prompt_last_witness :
  last (ChatRequest.messages
          (@Part003.requestWithPrompt exampleConstant exampleStores
             (λ _, JsonFails) [flagOnMessage] "Summarize." "now" None).1)
  = Some {| ChatRequest.role := user; ChatRequest.content := "Summarize." |}
  ∧ (@Part003.requestWithPrompt exampleConstant exampleStores
       (λ _, JsonFails) [flagOnMessage] "Summarize." "now" None).2
    = Resolved "".
Proof.
  destruct (requestWithPrompt_sends_prompt_last exampleConstant exampleStores
              (λ _, JsonFails) [flagOnMessage] "Summarize." "now" None
              (@Part003.requestWithPrompt exampleConstant exampleStores
                 (λ _, JsonFails) [flagOnMessage] "Summarize." "now" None))
    as (Hlast & Hfails & _).
  - right. right. right. reflexivity.
  - split; [exact Hlast|]. apply Hfails. reflexivity.
Defined.

(** ** [getHeaders] *)

Lemma getHeaders_other `{!AccessConstant} `{!StringTrim} accessStore k :
  k ≠ "Authorization" → getHeaders accessStore !! k = None.
Proof.
  intros Hk. unfold getHeaders.
  repeat case_match; rewrite ?lookup_insert_ne by done; apply lookup_empty.
Qed.

(** X12.  [getHeaders] sets at most the header [Authorization].  The
    user's own key, when it is non-empty, is the credential, whatever the
    access code; the prefixed access code is the credential only when
    there is no such key, access control is enabled and the code is
    non-empty; otherwise no header is set, so the access code is never
    sent while access control is disabled. *)
Theorem getHeaders_credential_precedence :
  ∀ (A : AccessConstant) (T : StringTrim) (accessStore : AccessStore),
    (∀ k, k ≠ "Authorization" → getHeaders accessStore !! k = None)
    ∧ getHeaders accessStore !! "Authorization"
      = (if validString (token accessStore)
         then Some ("Bearer " +:+ trim (default "" (token accessStore)))
         else if enabledAccessControl accessStore
                 && validString (accessCode accessStore)
         then Some ("Bearer " +:+ trim (ACCESS_CODE_PREFIX +:+
                                        default "" (accessCode accessStore)))
         else None).
Proof.
  intros A T accessStore. unfold getHeaders, makeBearer.
  destruct (validString (token accessStore));
    [|destruct (enabledAccessControl accessStore
                && validString (accessCode accessStore))].
  - split; [intros k Hk; by rewrite lookup_insert_ne|apply lookup_insert_eq].
  - split; [intros k Hk; by rewrite lookup_insert_ne|apply lookup_insert_eq].
  - split; [intros k Hk|]; apply lookup_empty.
Qed.

Lemma getHeaders_credential_precedence_witness :
  @getHeaders exampleAccessConstant exampleTrim
    {| token := Some " sk-1 "; accessCode := Some "code";
       enabledAccessControl := true; openaiUrl := "/api/" |}
    !! "Authorization"
  = Some "Bearer sk-1".
Proof.
  exact (proj2 (getHeaders_credential_precedence exampleAccessConstant
                  exampleTrim
                  {| token := Some " sk-1 "; accessCode := Some "code";
                     enabledAccessControl := true; openaiUrl := "/api/" |})).
Defined.

(** X13.  The streaming request always carries the content type
    [application/json] and the same credential as a request made through
    [requestOpenaiClient], which sets no content type; the latter uses the
    method [POST] unless one is given. *)
Theorem fetch_headers_and_method :
  ∀ (A : AccessConstant) (T : StringTrim) (accessStore : AccessStore)
    (req : ChatRequest.t) (path : string) (body : option ChatRequest.t)
    (method0 : option string),
    let streaming := streamFetch accessStore req in
    let plain := requestOpenaiClient accessStore path body method0 in
    headers streaming !! "Content-Type" = Some "application/json"
    ∧ headers plain !! "Content-Type" = None
    ∧ headers streaming !! "Authorization" = headers plain !! "Authorization"
    ∧ (∀ k, k ≠ "Authorization" → k ≠ "Content-Type" →
            headers streaming !! k = None)
    ∧ method plain = default "POST" method0
    ∧ url plain = openaiUrl accessStore +:+ path.
Proof.
  intros A T accessStore req path body method0 streaming plain.
  pose proof (@getHeaders_other A T accessStore) as Hother.
  subst streaming plain. cbn [headers streamFetch requestOpenaiClient].
  split; [|split; [|split; [|split; [|split]]]]; try reflexivity.
  - rewrite lookup_union_r by (by apply Hother).
    apply lookup_singleton_eq.
  - by apply Hother.
  - destruct (getHeaders accessStore !! "Authorization") as [v|] eqn:E.
    + by apply lookup_union_Some_l.
    + rewrite lookup_union_r by done. by rewrite lookup_singleton_ne.
  - intros k Hk1 Hk2. rewrite lookup_union_r by (by apply Hother).
    by rewrite lookup_singleton_ne.
Qed.

(** ** The context compression engine *)

Lemma truthy_string_Some s : s ≠ "" → truthy_string (Some s) = true.
Proof. intros Hs. cbn. by apply negb_true_iff, String.eqb_neq. Qed.

(** The heap after a successful run of part_002's summarize operation. *)
Lemma part002_success_heap `{!Constant} `{!Locale} stores r h message session i s :
  summaryLevel (modelConfig (mask session)) = Incremental →
  compressMessageLengthThreshold (modelConfig (mask session))
    ≤ String.length (content (h message)) →
  indexOf (messages session) message = Some i →
  ChatResponse.first_content (Some r) = Some s → s ≠ "" →
  Part002.summarizeMessageIncrementally stores (λ _, Json r) h message session
  = {| Part002.sent :=
         [ request (Part002.requestChat stores (λ _, Json r)
                      (Part002.subConversation h session i) summaryOptions) ];
       Part002.result := Resolved message;
       Part002.heap :=
         <[ message :=
              {| id := id (h message); role := role (h message);
                 content := content (h message); summary := Some s;
                 useSummary := Some true; nTokens := nTokens (h message);
                 nSummaryTokens :=
                   ChatResponse.usage_completion_tokens (Some r);
                 date := date (h message);
                 hidden := hidden (h message) |} ]> h |}.
Proof.
  intros Hlevel Hlen Hi Hs Hne. unfold Part002.summarizeMessageIncrementally.
  rewrite (bool_decide_eq_true_2 _ Hlevel). cbn [negb].
  rewrite bool_decide_eq_false_2 by lia. rewrite Hi.
  cbn [Part002.requestChat reply request awaitJson].
  rewrite Hs, (truthy_string_Some _ Hne). reflexivity.
Qed.

(** X14.  When the sub-request of part_002 returns a non-empty text, the
    target message gets that text as its summary, its flag set and the
    completion token count of the reply; its other properties and every
    other message are unchanged, and the promise resolves with the
    message. *)
Theorem part002_summary_is_stored :
  ∀ (K : Constant) (L : Locale) (stores : Stores) (r : ChatResponse.t)
    (h : Heap) (message : Loc) (session : ChatSession) (s : string),
    summaryLevel (modelConfig (mask session)) = Incremental →
    compressMessageLengthThreshold (modelConfig (mask session))
      ≤ String.length (content (h message)) →
    message ∈ messages session →
    ChatResponse.first_content (Some r) = Some s → s ≠ "" →
    let out := Part002.summarizeMessageIncrementally stores (λ _, Json r)
                 h message session in
    let m' := Part002.heap out message in
    summary m' = Some s ∧ useSummary m' = Some true
    ∧ nSummaryTokens m' = ChatResponse.usage_completion_tokens (Some r)
    ∧ (id m', role m', content m', nTokens m', date m', hidden m')
      = (id (h message), role (h message), content (h message),
         nTokens (h message), date (h message), hidden (h message))
    ∧ (∀ l, l ≠ message → Part002.heap out l = h l)
    ∧ Part002.result out = Resolved message.
Proof.
  intros K L stores r h message session s Hlevel Hlen Hin Hs Hne out m'.
  destruct (indexOf (messages session) message) as [i|] eqn:Hi.
  2:{ by apply indexOf_None in Hi. }
  subst m' out.
  rewrite (part002_success_heap _ _ _ _ _ _ _ Hlevel Hlen Hi Hs Hne).
  cbn [Part002.heap Part002.result]. rewrite fn_lookup_insert.
  repeat split; try reflexivity.
  intros l Hl. by rewrite fn_lookup_insert_ne.
Qed.

Lemma part002_summary_is_stored_witness :
  summary
    (Part002.heap
       (@Part002.summarizeMessageIncrementally exampleConstant exampleLocale
          exampleStores (λ _, Json (exampleReply "gist")) exampleHeap 1
          (exampleSession 5 [0; 1])) 1)
  = Some "gist".
Proof.
  apply (part002_summary_is_stored exampleConstant exampleLocale exampleStores
           (exampleReply "gist") exampleHeap 1 (exampleSession 5 [0; 1])
           "gist").
  - reflexivity.
  - cbn. lia.
  - cbn. set_solver.
  - reflexivity.
  - discriminate.
Defined.

Lemma summary_invariant_insert h l m :
  summary_invariant h →
  (truthy_bool (useSummary m) = true → truthy_string (summary m) = true) →
  summary_invariant (<[l := m]> h).
Proof.
  intros Hinv Hm l'. destruct (decide (l = l')) as [<-|Hne].
  - by rewrite fn_lookup_insert.
  - rewrite fn_lookup_insert_ne by done. apply Hinv.
Qed.

(** X15.  The summarize operations keep the invariant of the data model:
    if every message marked for substitution has a non-empty summary
    before, the same holds afterwards, whatever the network does.  This
    holds for part_002's [summarizeMessageIncrementally] and for part_001's
    [summarizeMessage]. *)
Theorem summarize_keeps_summary_invariant :
  ∀ (K : Constant) (L : Locale) (stores : Stores)
    (net : ChatRequest.t → FetchJson) (h : Heap) (message : Loc)
    (session : ChatSession),
    summary_invariant h →
    summary_invariant
      (Part002.heap
         (Part002.summarizeMessageIncrementally stores net h message session))
    ∧ summary_invariant
        (Part001.heap
           (Part001.summarizeMessage stores net h message session)).
Proof.
  intros K L stores net h message session Hinv. split.
  - unfold Part002.summarizeMessageIncrementally.
    destruct (negb _); [done|]. destruct (bool_decide _); [done|].
    destruct (indexOf _ _) as [i|]; [|done].
    destruct (reply _) as [response|e]; [|done]. cbn [Part002.heap].
    destruct (truthy_string (ChatResponse.first_content response)) eqn:Ht;
      [|done].
    by apply summary_invariant_insert.
  - unfold Part001.summarizeMessage.
    destruct (Part001.response _) as [sr|e]; [|done]. cbn [Part001.heap].
    unfold Part001.foldSummary.
    destruct (truthy_string (SummaryResponse.summary sr)) eqn:Ht; [|done].
    cbn [negb]. destruct (head _) as [l|]; [|done].
    by apply summary_invariant_insert.
Qed.

Lemma summarize_keeps_summary_invariant_witness :
  summary_invariant
    (Part002.heap
       (@Part002.summarizeMessageIncrementally exampleConstant exampleLocale
          exampleStores (λ _, Json (exampleReply "gist")) exampleHeap 1
          (exampleSession 5 [0; 1]))).
Proof.
  apply (summarize_keeps_summary_invariant exampleConstant exampleLocale
           exampleStores (λ _, Json (exampleReply "gist")) exampleHeap 1
           (exampleSession 5 [0; 1])).
  intros [|[|l]]; cbn; discriminate.
Defined.

Lemma head_filter_first {A} (P : A → Prop) `{!∀ x, Decision (P x)}
    (pre post : list A) (x : A) :
  Forall (λ y, ¬ P y) pre → P x →
  head (filter P (pre ++ x :: post)) = Some x.
Proof.
  intros Hpre Hx. induction Hpre as [|y pre Hy _ IH].
  - by rewrite app_nil_l, filter_cons_True.
  - by rewrite <- app_comm_cons, filter_cons_False.
Qed.

(** X16.  part_001's [summarizeMessage] stores a non-empty summary on the
    first message of the session whose [id] equals that of the target,
    which is the target when ids are unique.  That message gets the
    summary, the flag and the token count; every other message is
    unchanged, so a target that comes after another message with the same
    [id] is itself left without the summary. *)
Theorem part001_summary_lands_on_first_with_id :
  ∀ (K : Constant) (L : Locale) (stores : Stores) (r : ChatResponse.t)
    (h : Heap) (message l0 : Loc) (session : ChatSession)
    (pre post : list Loc) (s : string),
    message ∈ messages session →
    messages session = pre ++ l0 :: post →
    id (h l0) = id (h message) →
    (∀ l, l ∈ pre → id (h l) ≠ id (h message)) →
    ChatResponse.first_content (Some r) = Some s → s ≠ "" →
    let h' := Part001.heap
                (Part001.summarizeMessage stores (λ _, Json r) h message
                   session) in
    summary (h' l0) = Some s ∧ useSummary (h' l0) = Some true
    ∧ nSummaryTokens (h' l0) = ChatResponse.usage_completion_tokens (Some r)
    ∧ content (h' l0) = content (h l0)
    ∧ (∀ l, l ≠ l0 → h' l = h l).
Proof.
  intros K L stores r h message l0 session pre post s Hin Hmsgs Hid Hpre
    Hs Hne h'.
  destruct (indexOf (messages session) message) as [i|] eqn:Hi.
  2:{ by apply indexOf_None in Hi. }
  subst h'. unfold Part001.summarizeMessage,
    Part001.summarizeMessageIncrementally.
  rewrite Hi.
  cbn [Part001.response Part001.requestChat reply request awaitJson then_
       Part001.heap].
  unfold Part001.foldSummary.
  cbn [SummaryResponse.summary SummaryResponse.messageId
       SummaryResponse.nSummaryTokens].
  rewrite Hs, (truthy_string_Some _ Hne). cbn [negb].
  rewrite Hmsgs, head_filter_first; [|by apply Forall_forall|done].
  rewrite fn_lookup_insert. repeat split; try reflexivity.
  intros l Hl. by rewrite fn_lookup_insert_ne.
Qed.

Lemma part001_summary_lands_on_first_with_id_witness :
  summary
    (Part001.heap
       (@Part001.summarizeMessage exampleConstant exampleLocale
          exampleStores (λ _, Json (exampleReply "gist")) exampleHeap 1
          (exampleSession 5 [0; 1])) 1)
  = Some "gist".
Proof.
  apply (part001_summary_lands_on_first_with_id exampleConstant exampleLocale
           exampleStores (exampleReply "gist") exampleHeap 1 1
           (exampleSession 5 [0; 1]) [0] [] "gist").
  - cbn. set_solver.
  - reflexivity.
  - reflexivity.
  - intros l Hl. apply list_elem_of_singleton in Hl as ->. discriminate.
  - reflexivity.
  - discriminate.
Defined.

(** X17.  Summarize, then assemble (part_002): once the sub-request has
    returned a non-empty text for a message, the next request built from
    that message sends the marker, a space and that text in its place, and
    keeps its role. *)
Theorem part002_summarized_message_goes_out_marked :
  ∀ (K : Constant) (L : Locale) (stores : Stores) (r : ChatResponse.t)
    (h : Heap) (message : Loc) (session : ChatSession) (s : string)
    (opts : option RequestOptions),
    summaryLevel (modelConfig (mask session)) = Incremental →
    compressMessageLengthThreshold (modelConfig (mask session))
      ≤ String.length (content (h message)) →
    message ∈ messages session →
    ChatResponse.first_content (Some r) = Some s → s ≠ "" →
    let h' := Part002.heap
                (Part002.summarizeMessageIncrementally stores (λ _, Json r)
                   h message session) in
    ChatRequest.messages
      (Part002.makeRequestParam stores (h' <$> messages session) opts)
    = part002_pair Part002.summaryIntro
      :: ((λ l, if decide (l = message)
                then {| ChatRequest.role := role (h l);
                        ChatRequest.content :=
                          INCREMENTAL_SUMMARY_PREFIX +:+ " " +:+ s |}
                else part002_pair (h l)) <$> messages session).
Proof.
  intros K L stores r h message session s opts Hlevel Hlen Hin Hs Hne h'.
  destruct (indexOf (messages session) message) as [i|] eqn:Hi.
  2:{ by apply indexOf_None in Hi. }
  subst h'.
  rewrite (part002_success_heap _ _ _ _ _ _ _ Hlevel Hlen Hi Hs Hne).
  cbn [Part002.heap]. rewrite AssemblerFacts.part002_messages.
  f_equal. rewrite <- list_fmap_compose. apply list_fmap_ext.
  intros j l _. cbn. destruct (decide (l = message)) as [->|Hl].
  - rewrite fn_lookup_insert. unfold part002_pair.
    cbn [summary role content]. by rewrite (truthy_string_Some _ Hne).
  - by rewrite fn_lookup_insert_ne.
Qed.

Lemma part002_summarized_message_goes_out_marked_witness :
  ChatRequest.messages
    (@Part002.makeRequestParam exampleConstant exampleStores
       (Part002.heap
          (@Part002.summarizeMessageIncrementally exampleConstant
             exampleLocale exampleStores (λ _, Json (exampleReply "gist"))
             exampleHeap 1 (exampleSession 5 [1]))
        <$> messages (exampleSession 5 [1])) None)
  = [ @part002_pair exampleConstant (@Part002.summaryIntro exampleConstant);
      {| ChatRequest.role := assistant;
         ChatRequest.content := "[SUMMARY] gist" |} ].
Proof.
  exact (part002_summarized_message_goes_out_marked exampleConstant
           exampleLocale exampleStores (exampleReply "gist") exampleHeap 1
           (exampleSession 5 [1]) "gist" None eq_refl
           ltac:(cbn; lia) ltac:(cbn; set_solver) eq_refl
           ltac:(discriminate)).
Defined.

(** X18.  The request that part_002 sends for a summary: the note on the
    marker, the system messages of the context, the instruction, then the
    messages up to the target.  A message of the session that already has a
    summary appears with the bare text of that summary: the marker is not
    put in front of it, since the assembler sees a copy without the
    [summary] property. *)
Theorem part002_subrequest_has_bare_summaries :
  ∀ (K : Constant) (L : Locale) (stores : Stores)
    (net : ChatRequest.t → FetchJson) (h : Heap) (message : Loc)
    (session : ChatSession) (i : nat),
    summaryLevel (modelConfig (mask session)) = Incremental →
    compressMessageLengthThreshold (modelConfig (mask session))
      ≤ String.length (content (h message)) →
    indexOf (messages session) message = Some i →
    ChatRequest.messages <$>
      Part002.sent
        (Part002.summarizeMessageIncrementally stores net h message session)
    = [ part002_pair Part002.summaryIntro
        :: (part002_pair <$>
              filter (λ m, role m = system) (h <$> context (mask session)))
        ++ [ {| ChatRequest.role := system;
                ChatRequest.content := SummarizeIncremental |} ]
        ++ ((λ l, {| ChatRequest.role := role (h l);
                     ChatRequest.content :=
                       if truthy_string (summary (h l))
                       then default "" (summary (h l))
                       else content (h l) |})
            <$> take (S i) (messages session)) ].
Proof.
  intros K L stores net h message session i Hlevel Hlen Hi.
  unfold Part002.summarizeMessageIncrementally.
  rewrite (bool_decide_eq_true_2 _ Hlevel). cbn [negb].
  rewrite bool_decide_eq_false_2 by lia. rewrite Hi.
  cbn [Part002.requestChat reply request].
  assert (∀ msgs o, ChatRequest.messages <$>
            Part002.sent
              match awaitJson (net (Part002.makeRequestParam stores msgs o)) with
              | Resolved response =>
                  {| Part002.sent := [Part002.makeRequestParam stores msgs o];
                     Part002.result := Resolved message;
                     Part002.heap :=
                       if truthy_string (ChatResponse.first_content response)
                       then <[ message :=
                         {| id := id (h message); role := role (h message);
                            content := content (h message);
                            summary := ChatResponse.first_content response;
                            useSummary := Some true;
                            nTokens := nTokens (h message);
                            nSummaryTokens :=
                              ChatResponse.usage_completion_tokens response;
                            date := date (h message);
                            hidden := hidden (h message) |} ]> h
                       else h |}
              | Rejected e =>
                  {| Part002.sent := [Part002.makeRequestParam stores msgs o];
                     Part002.result := Rejected e; Part002.heap := h |}
              end
          = [ChatRequest.messages (Part002.makeRequestParam stores msgs o)])
    as Hsent.
  { intros msgs o. by destruct (awaitJson _). }
  rewrite Hsent. f_equal.
  rewrite AssemblerFacts.part002_messages. f_equal.
  unfold Part002.subConversation. rewrite !fmap_app. f_equal.
  rewrite list_fmap_singleton. cbn [app]. f_equal.
  rewrite <- !list_fmap_compose. apply list_fmap_ext.
  intros j l _. cbn -[part002_pair].
  rewrite AssemblerFacts.isMessageInSummaryMode_unchecked.
  unfold part002_pair. cbn. by destruct (truthy_string (summary (h l))).
Qed.

Lemma part002_subrequest_has_bare_summaries_witness :
  ChatRequest.messages <$>
    Part002.sent
      (@Part002.summarizeMessageIncrementally exampleConstant exampleLocale
         exampleStores (λ _, JsonFails)
         summarizedHeap 1 (exampleSession 5 [0; 1]))
  = [ [ @part002_pair exampleConstant (@Part002.summaryIntro exampleConstant);
        {| ChatRequest.role := system;
           ChatRequest.content := "Summarize the last message." |};
        {| ChatRequest.role := user; ChatRequest.content := "short" |};
        {| ChatRequest.role := assistant;
           ChatRequest.content := "a long enough answer" |} ] ].
Proof.
  exact (part002_subrequest_has_bare_summaries exampleConstant exampleLocale
           exampleStores (λ _, JsonFails) summarizedHeap
           1 (exampleSession 5 [0; 1]) 1 eq_refl ltac:(vm_compute; lia) eq_refl).
Defined.

(** X19.  When nothing is to be summarized, nothing happens.  part_002
    sends no request and changes no message when the summary level is not
    the incremental one, or when the message is not in the session; it
    resolves with the message.  part_001 sends no request and changes no
    message when the message is not in the session. *)
Theorem summarize_does_nothing_outside_its_gates :
  ∀ (K : Constant) (L : Locale) (stores : Stores)
    (net : ChatRequest.t → FetchJson) (h : Heap) (message : Loc)
    (session : ChatSession),
    summaryLevel (modelConfig (mask session)) ≠ Incremental
    ∨ message ∉ messages session →
    Part002.summarizeMessageIncrementally stores net h message session
      = {| Part002.sent := []; Part002.result := Resolved message;
           Part002.heap := h |}
    ∧ (message ∉ messages session →
       Part001.requests
         (Part001.summarizeMessage stores net h message session) = []
       ∧ Part001.heap
           (Part001.summarizeMessage stores net h message session) = h
       ∧ Part001.response
           (Part001.summarizeMessageIncrementally stores net h message session)
         = Resolved {| SummaryResponse.messageId := id (h message);
                       SummaryResponse.summary := None;
                       SummaryResponse.nSummaryTokens := None |}).
Proof.
  intros K L stores net h message session Hgate. split.
  - unfold Part002.summarizeMessageIncrementally.
    destruct Hgate as [Hlevel|Hnot].
    + by rewrite bool_decide_eq_false_2.
    + apply indexOf_None in Hnot. rewrite Hnot.
      destruct (negb _); [done|]. by destruct (bool_decide _).
  - intros Hnot. apply indexOf_None in Hnot.
    unfold Part001.summarizeMessage, Part001.summarizeMessageIncrementally.
    rewrite Hnot. done.
Qed.

Lemma summarize_does_nothing_outside_its_gates_witness :
  @Part002.summarizeMessageIncrementally exampleConstant exampleLocale
    exampleStores (λ _, Json (exampleReply "gist")) exampleHeap 1
    (exampleSession 5 [0])
  = {| Part002.sent := []; Part002.result := Resolved 1;
       Part002.heap := exampleHeap |}.
Proof.
  apply (summarize_does_nothing_outside_its_gates exampleConstant
           exampleLocale exampleStores (λ _, Json (exampleReply "gist"))
           exampleHeap 1 (exampleSession 5 [0])).
  right. cbn. intros Hin. apply list_elem_of_singleton in Hin. discriminate.
Defined.

(** ** [shuffleWords] and [annotateTokenCount] *)

Lemma split_space_nonempty s : split_space s ≠ [].
Proof.
  destruct s as [|c s]; cbn; [done|].
  destruct (Ascii.eqb c space); [done|]. by destruct (split_space s).
Qed.

Lemma join_space_cons w ws :
  ws ≠ [] → join_space (w :: ws) = w +:+ " " +:+ join_space ws.
Proof. by destruct ws. Qed.

Lemma join_split_space s : join_space (split_space s) = s.
Proof.
  induction s as [|c s IH]; [done|]. cbn [split_space].
  destruct (Ascii.eqb c space) eqn:Hc.
  - apply Ascii.eqb_eq in Hc as ->.
    rewrite join_space_cons by apply split_space_nonempty. by rewrite IH.
  - pose proof (split_space_nonempty s) as Hne.
    destruct (split_space s) as [|w ws]; [done|].
    destruct ws as [|w' ws].
    + cbn in *. by rewrite IH.
    + rewrite join_space_cons by done. rewrite join_space_cons in IH by done.
      rewrite <- IH. reflexivity.
Qed.

Lemma split_space_words s :
  Forall (λ w, occurs space w = false) (split_space s).
Proof.
  induction s as [|c s IH]; cbn [split_space]; [by repeat constructor|].
  destruct (Ascii.eqb c space) eqn:Hc; [by constructor|].
  destruct (split_space s) as [|w ws].
  { constructor; [|constructor]. cbn. by rewrite Hc. }
  apply Forall_cons in IH as [Hw Hws]. constructor; [|done].
  cbn. by rewrite Hc, Hw.
Qed.

Lemma split_space_word w : occurs space w = false → split_space w = [w].
Proof.
  induction w as [|c w IH]; [done|]. cbn [occurs String.append split_space].
  destruct (Ascii.eqb c space); [done|]. cbn [orb].
  intros Hw. by rewrite IH.
Qed.

Lemma split_space_append w rest :
  occurs space w = false →
  split_space (w +:+ String space rest) = w :: split_space rest.
Proof.
  induction w as [|c w IH].
  - intros _. change (split_space (String space rest) = "" :: split_space rest).
    cbn [split_space]. by rewrite Ascii.eqb_refl.
  - change (String c w +:+ ?x) with (String c (w +:+ x)).
    cbn [occurs split_space].
    destruct (Ascii.eqb c space); [done|]. cbn [orb].
    intros Hw. by rewrite IH.
Qed.

Lemma split_join_space ws :
  ws ≠ [] → Forall (λ w, occurs space w = false) ws →
  split_space (join_space ws) = ws.
Proof.
  induction ws as [|w ws IH]; [done|]. intros _ [Hw Hws]%Forall_cons.
  destruct ws as [|w' ws]; [by apply split_space_word|].
  rewrite join_space_cons by done.
  change (w +:+ " " +:+ ?x) with (w +:+ String space x).
  rewrite split_space_append by done. by rewrite IH.
Qed.

(** X20.  Splitting at the spaces and joining with spaces are inverse to
    each other: joining the pieces of a text gives the text back, and
    splitting the join of a non-empty list of words without spaces gives
    the words back.  The pieces of a text contain no space and there is
    always at least one. *)
Theorem split_join_space_roundtrip :
  ∀ (s : string) (ws : list string),
    join_space (split_space s) = s
    ∧ split_space s ≠ []
    ∧ Forall (λ w, occurs space w = false) (split_space s)
    ∧ (ws ≠ [] → Forall (λ w, occurs space w = false) ws →
       split_space (join_space ws) = ws).
Proof.
  intros s ws. split; [|split; [|split]].
  - apply join_split_space.
  - apply split_space_nonempty.
  - apply split_space_words.
  - apply split_join_space.
Qed.

Lemma split_join_space_roundtrip_witness :
  split_space (join_space ["b"; ""; "a"]) = ["b"; ""; "a"].
Proof.
  apply (split_join_space_roundtrip "" ["b"; ""; "a"]).
  - discriminate.
  - repeat constructor.
Defined.

Lemma randomIndex_range r i :
  (0 <= r)%Q → (r < 1)%Q →
  (0 ≤ randomIndex r i)%Z ∧ (randomIndex r i ≤ Z.of_nat i)%Z.
Proof.
  intros H0 H1. unfold randomIndex.
  assert (0 < inject_Z (Z.of_nat (i + 1)))%Q as Hpos.
  { rewrite <- (Zlt_Qlt 0). lia. }
  split.
  - change 0%Z with (Qfloor 0). apply Qfloor_resp_le.
    apply Qmult_le_0_compat; [done|]. by apply Qlt_le_weak.
  - cut (Qfloor (r * inject_Z (Z.of_nat (i + 1))) < Z.of_nat (i + 1))%Z;
      [lia|].
    rewrite Zlt_Qlt. eapply Qle_lt_trans; [apply Qfloor_le|].
    rewrite <- (Qmult_1_l (inject_Z (Z.of_nat (i + 1)))) at 2.
    by apply Qmult_lt_compat_r.
Qed.

Lemma swapWords_Some i j words :
  i < length words → (0 ≤ j)%Z → (j ≤ Z.of_nat i)%Z →
  ∃ words', swapWords i j words = Some words'
            ∧ words' ≡ₚ words ∧ length words' = length words.
Proof.
  intros Hi Hj0 Hji. unfold swapWords.
  rewrite bool_decide_eq_true_2 by done.
  assert (Z.to_nat j < length words) as Hj by lia.
  set (k := Z.to_nat j) in *.
  destruct (lookup_lt_is_Some_2 words k Hj) as [wj Hwj].
  destruct (lookup_lt_is_Some_2 words i Hi) as [wi Hwi].
  rewrite Hwj, Hwi. cbn. eexists. split; [done|].
  split; [|by rewrite !length_insert].
  apply Permutation_inj. split; [by rewrite !length_insert|].
  exists (λ n, if decide (n = k) then i
               else if decide (n = i) then k else n).
  split.
  - intros a b. repeat case_decide; congruence.
  - intros n. destruct (decide (n = k)) as [->|Hnk].
    + rewrite list_lookup_insert_eq by (by rewrite length_insert). done.
    + rewrite list_lookup_insert_ne by done.
      destruct (decide (n = i)) as [->|Hni].
      * by rewrite list_lookup_insert_eq.
      * by rewrite list_lookup_insert_ne.
Qed.

Lemma shuffleFrom_Some i : ∀ random words,
  unit_interval random → i < length words →
  ∃ words', shuffleFrom random i words = Some words'
            ∧ words' ≡ₚ words.
Proof.
  induction i as [|i IH]; intros random words Hr Hi; cbn [shuffleFrom].
  - by exists words.
  - destruct (Hr 0) as [H0 H1].
    destruct (randomIndex_range (random 0) (S i) H0 H1) as [Hj0 Hji].
    destruct (swapWords_Some (S i) _ words Hi Hj0 Hji)
      as (words1 & -> & Hp1 & Hl1).
    cbn. destruct (IH (λ k, random (S k)) words1) as (words2 & -> & Hp2).
    + intros k. apply Hr.
    + lia.
    + exists words2. split; [done|]. by rewrite Hp2.
Qed.

Lemma join_space_length ws :
  ws ≠ [] →
  S (String.length (join_space ws))
  = sum_list_with (λ w, S (String.length w)) ws.
Proof.
  induction ws as [|w ws IH]; [done|]. intros _.
  destruct ws as [|w' ws]; [cbn; lia|].
  rewrite join_space_cons by done. rewrite !string_length_app.
  change (sum_list_with ?f (w :: ?l)) with (f w + sum_list_with f l).
  rewrite <- IH by done. cbn [String.length]. lia.
Qed.

Lemma shuffleWords_Some random input :
  unit_interval random →
  ∃ output, shuffleWords random input = Some output
            ∧ split_space output ≡ₚ split_space input.
Proof.
  intros Hr. unfold shuffleWords.
  pose proof (split_space_nonempty input) as Hne.
  destruct (shuffleFrom_Some (length (split_space input) - 1) random
              (split_space input) Hr) as (words & -> & Hp).
  { destruct (split_space input); [done|]. cbn. lia. }
  cbn. eexists. split; [done|].
  assert (words ≠ []) as Hne'.
  { intros ->. by apply Permutation_nil_l in Hp. }
  rewrite split_join_space; [done..|].
  rewrite Hp. apply split_space_words.
Qed.

(** X21.  [shuffleWords] only rearranges the words: for every sequence
    of values of [Math.random()], the result exists, its words are a
    rearrangement of the words of the input (the same words, each as often
    as before), and it is as long as the input. *)
Theorem shuffleWords_rearranges_words :
  ∀ (random : nat → Q) (input : string),
    unit_interval random →
    ∃ output, shuffleWords random input = Some output
              ∧ split_space output ≡ₚ split_space input
              ∧ String.length output = String.length input.
Proof.
  intros random input Hr.
  destruct (shuffleWords_Some random input Hr) as (output & Hout & Hp).
  exists output. split; [done|]. split; [done|].
  rewrite <- (join_split_space output), <- (join_split_space input).
  apply Nat.succ_inj.
  rewrite !join_space_length by apply split_space_nonempty.
  by rewrite Hp.
Qed.

Lemma shuffleWords_rearranges_words_witness :
  ∃ output, shuffleWords halves "to be or not" = Some output
            ∧ split_space output ≡ₚ split_space "to be or not"
            ∧ String.length output = String.length "to be or not".
Proof.
  apply (shuffleWords_rearranges_words halves "to be or not").
  intros k. split; [discriminate|reflexivity].
Defined.

(** X22.  [annotateTokenCount] (part_002).  For an empty content it sends
    nothing and changes nothing.  Otherwise it sends one request whose only
    message, after the note on the marker, is a rearrangement of the words
    of the content followed by a line [Nevermind].  Whatever the reply, no
    other message is touched and the target changes at most in [nTokens]:
    it becomes the prompt token count of the reply when the reply is JSON
    and that count is present and not zero, and stays as it was in every
    other case.  The promise resolves with the message unless the fetch
    rejects, and then it rejects with the same error. *)
Theorem annotateTokenCount_touches_only_nTokens :
  ∀ (K : Constant) (stores : Stores) (net : ChatRequest.t → FetchJson)
    (random : nat → Q) (h : Heap) (message : Loc),
    unit_interval random →
    ∃ out, Part002.annotateTokenCount stores net random h message = Some out
      ∧ (content (h message) = "" →
         Part002.annotating_sent out = []
         ∧ Part002.annotating_result out = Resolved message
         ∧ Part002.annotating_heap out = h)
      ∧ (content (h message) ≠ "" →
         ∃ shuffled req,
           Part002.annotating_sent out = [req]
           ∧ ChatRequest.messages req
             = [ part002_pair Part002.summaryIntro;
                 {| ChatRequest.role := user;
                    ChatRequest.content :=
                      shuffled +:+ newline +:+ "Nevermind" |} ]
           ∧ split_space shuffled ≡ₚ split_space (content (h message)))
      ∧ (∀ l, l ≠ message → Part002.annotating_heap out l = h l)
      ∧ (let m' := Part002.annotating_heap out message in
         (id m', role m', content m', summary m', useSummary m',
          nSummaryTokens m', date m', hidden m')
         = (id (h message), role (h message), content (h message),
            summary (h message), useSummary (h message),
            nSummaryTokens (h message), date (h message),
            hidden (h message)))
      ∧ nTokens (Part002.annotating_heap out message)
        = match Part002.annotating_sent out with
          | req :: _ =>
              match net req with
              | Json response =>
                  match ChatResponse.usage response
                        ≫= ChatResponse.prompt_tokens with
                  | Some (S n) => Some (S n)
                  | _ => nTokens (h message)
                  end
              | _ => nTokens (h message)
              end
          | [] => nTokens (h message)
          end
      ∧ Part002.annotating_result out
        = match Part002.annotating_sent out with
          | req :: _ =>
              match net req with
              | FetchJsonRejects e => Rejected e
              | _ => Resolved message
              end
          | [] => Resolved message
          end.
Proof.
  intros K stores net random h message Hr.
  unfold Part002.annotateTokenCount.
  destruct (String.eqb_spec (content (h message)) "") as [Hc|Hc].
  - cbn [truthy_string]. rewrite (proj2 (String.eqb_eq _ _) Hc). cbn [negb].
    eexists. split; [done|]. cbn [Part002.annotating_sent
      Part002.annotating_result Part002.annotating_heap].
    by repeat (split; [done|]).
  - cbn [truthy_string].
    rewrite (proj2 (String.eqb_neq _ _) Hc). cbn [negb].
    destruct (shuffleWords_Some random (content (h message)) Hr)
      as (shuffled & -> & Hp).
    cbn [mbind option_bind Part002.requestChat reply request].
    set (req := Part002.makeRequestParam _ _ _).
    assert (ChatRequest.messages req
            = [ part002_pair Part002.summaryIntro;
                {| ChatRequest.role := user;
                   ChatRequest.content :=
                     shuffled +:+ newline +:+ "Nevermind" |} ]) as Hreq.
    { subst req. by rewrite AssemblerFacts.part002_messages. }
    destruct (net req) as [e| |response] eqn:Hnet; cbn [awaitJson].
    + eexists. split; [done|]. cbn [Part002.annotating_sent
        Part002.annotating_result Part002.annotating_heap].
      split; [done|]. split; [intros _; by exists shuffled, req|].
      rewrite Hnet. by repeat (split; [done|]).
    + eexists. split; [done|]. cbn [Part002.annotating_sent
        Part002.annotating_result Part002.annotating_heap].
      split; [done|]. split; [intros _; by exists shuffled, req|].
      rewrite Hnet. cbn [truthy_nat mbind option_bind].
      by repeat (split; [done|]).
    + eexists. split; [done|]. cbn [Part002.annotating_sent
        Part002.annotating_result Part002.annotating_heap].
      split; [done|]. split; [intros _; by exists shuffled, req|].
      rewrite Hnet. cbn [mbind option_bind].
      change (option_bind _ _ ChatResponse.prompt_tokens
                (ChatResponse.usage response))
        with (ChatResponse.usage response ≫= ChatResponse.prompt_tokens).
      destruct (ChatResponse.usage response ≫= ChatResponse.prompt_tokens)
        as [[|n]|]; cbn [truthy_nat].
      * by repeat (split; [done|]).
      * split; [intros l Hl; by rewrite fn_lookup_insert_ne|].
        rewrite fn_lookup_insert. by repeat (split; [done|]).
      * by repeat (split; [done|]).
Qed.

Lemma annotateTokenCount_touches_only_nTokens_witness :
  ∃ out,
    @Part002.annotateTokenCount exampleConstant exampleStores
      (λ _, Json (exampleReply "ok")) halves exampleHeap 1 = Some out
    ∧ nTokens (Part002.annotating_heap out 1) = Some 40.
Proof.
  destruct (annotateTokenCount_touches_only_nTokens exampleConstant
              exampleStores (λ _, Json (exampleReply "ok")) halves
              exampleHeap 1)
    as (out & Hout & _ & Hsent & _ & _ & Htokens & _).
  - intros k. split; [discriminate|reflexivity].
  - exists out. split; [exact Hout|].
    destruct Hsent as (shuffled & req & Hsent & _); [discriminate|].
    rewrite Htokens, Hsent. reflexivity.
Defined.

(** ** The streaming transport, in closed form *)

Lemma loopRun_final `{!TextDecoder} reader : ∀ d text,
  (loopRun d text reader).1.2 = default text (last (loopRun d text reader).1.1).
Proof.
  induction reader as [content rest IH|e|]; intros d text;
    cbn [loopRun]; [|done..].
  destruct (value content) as [v|]; [|done].
  destruct (decode d v) as [tx d']. destruct (done content); [done|].
  specialize (IH d' (text +:+ tx)).
  destruct (loopRun d' (text +:+ tx) rest) as [[texts final] e].
  cbn [fst snd] in *. rewrite IH. destruct texts as [|s texts]; [done|].
  change (last ((text +:+ tx) :: s :: texts)) with (last (s :: texts)).
  destruct (last (s :: texts)) eqn:Hlast; [done|].
  by apply last_None in Hlast.
Qed.

Lemma loopRun_chunks `{!TextDecoder} chunks rest : ∀ d text,
  loopRun d text (bodyOfChunks chunks rest)
  = (runningTexts d text chunks,
     default text (last (runningTexts d text chunks)), EndOfBody).
Proof.
  induction chunks as [|v chunks IH]; intros d text; [done|].
  cbn [bodyOfChunks foldr loopRun value done runningTexts].
  destruct (decode d v) as [tx d']. fold (bodyOfChunks chunks rest).
  rewrite IH. f_equal. f_equal.
  destruct (runningTexts d' (text +:+ tx) chunks) as [|s texts]; [done|].
  change (last ((text +:+ tx) :: s :: texts)) with (last (s :: texts)).
  destruct (last (s :: texts)) eqn:Hlast; [done|].
  by apply last_None in Hlast.
Qed.

Lemma runningTexts_length `{!TextDecoder} chunks : ∀ d text,
  length (runningTexts d text chunks) = length chunks.
Proof.
  induction chunks as [|v chunks IH]; intros d text; [done|].
  cbn [runningTexts]. destruct (decode d v) as [tx d']. cbn.
  by rewrite IH.
Qed.

Module StreamClosedForm.
Section WithConstants.
Context `{!Constant} `{!Tiktoken} `{!TextDecoder}.

(** The read loop in terms of what the body amounts to. *)
Lemma readLoop_run nP reader : ∀ d text n,
  match loopRun d text reader, Part003.readLoop nP d text reader (idle n) with
  | (texts, final, e), (evs, ts, r) =>
      evs = (partial nP <$> texts)
            ++ (match e with IdleTimeout => idleEvents nP final | _ => [] end)
      ∧ late ts = (match e with
                   | ReadFailure _ => idleEvents nP final
                   | _ => []
                   end)
      ∧ r = (match e with
             | EndOfBody => Normal final
             | IdleTimeout => Throw AbortError
             | ReadFailure err => Throw err
             end)
  end.
Proof.
  induction reader as [content rest IH|e|]; intros d text n.
  - cbn [loopRun]. destruct (value content) as [v|] eqn:Hv.
    2:{ by rewrite (StreamFacts.readLoop_end _ _ _ _ _ _ Hv). }
    destruct (decode d v) as [tx d'] eqn:Hd.
    destruct (done content) eqn:Hdone.
    + by rewrite (StreamFacts.readLoop_last _ _ _ _ _ _ _ _ _ Hv Hd Hdone).
    + rewrite (StreamFacts.readLoop_chunk _ _ _ _ _ _ _ _ _ Hv Hd Hdone).
      specialize (IH d' (text +:+ tx) (S n)).
      destruct (loopRun d' (text +:+ tx) rest) as [[texts final] e].
      destruct (Part003.readLoop nP d' (text +:+ tx) rest (idle (S n)))
        as [[evs ts] r].
      destruct IH as (-> & Hl & ->). done.
  - rewrite StreamFacts.readLoop_rejects. cbn [loopRun].
    by repeat split.
  - rewrite StreamFacts.readLoop_stalls. by cbn [loopRun].
Qed.

Lemma readAll_run nP body n :
  match bodyRun body, Part003.readAll nP body (idle n) with
  | (texts, final, e), (evs, ts, r) =>
      evs = (partial nP <$> texts)
            ++ (match e with IdleTimeout => idleEvents nP final | _ => [] end)
      ∧ late ts = (match e with
                   | ReadFailure _ => idleEvents nP final
                   | _ => []
                   end)
      ∧ r = (match e with
             | EndOfBody => Normal final
             | IdleTimeout => Throw AbortError
             | ReadFailure err => Throw err
             end)
  end.
Proof.
  destruct body as [reader|].
  - apply (readLoop_run nP reader newTextDecoder "" n).
  - cbn [Part003.readAll bodyRun]. eff_unfold. cbn -[Part003.idleCallback].
    by rewrite decide_False by naive_solver.
Qed.

End WithConstants.
End StreamClosedForm.

Module StreamTrace.
Section WithConstants.
Context `{!Constant} `{!Tiktoken} `{!TextDecoder}.

Lemma requestChatStream_closed stores messages overrideModel onController res :
  ok res = true →
  let nP := length (encode (String.concat newline (content <$> messages))) in
  Part003.requestChatStream stores messages overrideModel onController
    (Responds res)
  = Fetch (Part003.makeRequestParam stores messages
             (Some (streamOptions overrideModel)))
    :: (if onController then [OnController] else [])
    ++ (partial nP <$> (bodyRun (body res)).1.1)
    ++ ending (idleEvents nP (bodyRun (body res)).1.2) (bodyRun (body res)).2.
Proof.
  intros Hok nP.
  pose proof (StreamClosedForm.readAll_run nP (body res) 1) as Hrun.
  rewrite (StreamTheory.requestChatStream_ok _ _ _ _ _ Hok). cbn zeta.
  fold nP.
  destruct (bodyRun (body res)) as [[texts final] e].
  destruct (Part003.readAll nP (body res) (idle 1)) as [[evs ts] r].
  destruct Hrun as (-> & -> & ->).
  destruct e as [| |err]; cbn [ending fst snd];
    rewrite ?app_nil_r, <- ?app_assoc; reflexivity.
Qed.

Lemma bodyRun_final body :
  (bodyRun body).1.2 = default "" (last (bodyRun body).1.1).
Proof. destruct body as [reader|]; [apply loopRun_final|done]. Qed.

Lemma onMessage_calls_partial nP texts :
  onMessage_calls (partial nP <$> texts) = (λ t, (t, false)) <$> texts.
Proof. induction texts as [|t texts IH]; [done|]. cbn. by f_equal. Qed.

Lemma onError_calls_partial nP texts :
  onError_calls (partial nP <$> texts) = [].
Proof. by induction texts. Qed.

Lemma onError_calls_app tr1 tr2 :
  onError_calls (tr1 ++ tr2) = onError_calls tr1 ++ onError_calls tr2.
Proof. apply omap_app. Qed.

Lemma onMessage_calls_ending nP final e :
  onMessage_calls (ending (idleEvents nP final) e) = [ (final, true) ].
Proof. by destruct e. Qed.

Lemma requestChatStream_messages stores messages overrideModel onController
    res :
  ok res = true →
  onMessage_calls
    (Part003.requestChatStream stores messages overrideModel onController
       (Responds res))
  = ((λ t, (t, false)) <$> (bodyRun (body res)).1.1)
    ++ [ (default "" (last (bodyRun (body res)).1.1), true) ].
Proof.
  intros Hok. rewrite (requestChatStream_closed _ _ _ _ _ Hok). cbn zeta.
  change (Fetch ?r :: ?l) with ([Fetch r] ++ l).
  rewrite !onMessage_calls_app, onMessage_calls_partial,
    onMessage_calls_ending, bodyRun_final.
  by destruct onController.
Qed.

Lemma requestChatStream_errors stores messages overrideModel onController res :
  ok res = true →
  onError_calls
    (Part003.requestChatStream stores messages overrideModel onController
       (Responds res))
  = match (bodyRun (body res)).2 with
    | EndOfBody => []
    | IdleTimeout => [ (AbortError, None) ]
    | ReadFailure err => [ (err, None) ]
    end.
Proof.
  intros Hok. rewrite (requestChatStream_closed _ _ _ _ _ Hok). cbn zeta.
  change (Fetch ?r :: ?l) with ([Fetch r] ++ l).
  rewrite !onError_calls_app, onError_calls_partial.
  destruct onController; by destruct (bodyRun (body res)).2.
Qed.

Lemma requestChatStream_fetch_rejects stores messages overrideModel
    onController e :
  Part003.requestChatStream stores messages overrideModel onController
    (FetchRejects e)
  = [ Fetch (Part003.makeRequestParam stores messages
               (Some (streamOptions overrideModel)));
      OnError e None; Abort ].
Proof. reflexivity. Qed.

Lemma requestChatStream_fetch_stalls stores messages overrideModel
    onController :
  Part003.requestChatStream stores messages overrideModel onController
    FetchStalls
  = [ Fetch (Part003.makeRequestParam stores messages
               (Some (streamOptions overrideModel)));
      Abort; OnError AbortError None ].
Proof. reflexivity. Qed.

End WithConstants.
End StreamTrace.

Module PlainClosedForm.
Section WithDecoder.
Context `{!TextDecoder}.

Lemma plain_readLoop_run reader : ∀ d text n,
  match loopRun d text reader, Stream.readLoop d text reader (idle n) with
  | (texts, final, e), (evs, ts, r) =>
      evs = ((λ t, OnMessage t false None None) <$> texts)
            ++ (match e with IdleTimeout => plainIdleEvents final | _ => [] end)
      ∧ late ts = (match e with
                   | ReadFailure _ => plainIdleEvents final
                   | _ => []
                   end)
      ∧ r = (match e with
             | EndOfBody => Normal final
             | IdleTimeout => Throw AbortError
             | ReadFailure err => Throw err
             end)
  end.
Proof.
  induction reader as [content rest IH|e|]; intros d text n.
  - cbn [loopRun]. destruct (value content) as [v|] eqn:Hv.
    2:{ by rewrite (PlainStreamTheory.plain_readLoop_end _ _ _ _ _ Hv). }
    destruct (decode d v) as [tx d'] eqn:Hd.
    destruct (done content) eqn:Hdone.
    + by rewrite (PlainStreamTheory.plain_readLoop_last _ _ _ _ _ _ _ _
                    Hv Hd Hdone).
    + rewrite (PlainStreamTheory.plain_readLoop_chunk _ _ _ _ _ _ _ _
                 Hv Hd Hdone).
      specialize (IH d' (text +:+ tx) (S n)).
      destruct (loopRun d' (text +:+ tx) rest) as [[texts final] e].
      destruct (Stream.readLoop d' (text +:+ tx) rest (idle (S n)))
        as [[evs ts] r].
      destruct IH as (-> & Hl & ->). done.
  - rewrite PlainStreamTheory.plain_readLoop_rejects. cbn [loopRun].
    by repeat split.
  - rewrite PlainStreamTheory.plain_readLoop_stalls. by cbn [loopRun].
Qed.

Lemma plain_readAll_run body n :
  match bodyRun body, Stream.readAll body (idle n) with
  | (texts, final, e), (evs, ts, r) =>
      evs = ((λ t, OnMessage t false None None) <$> texts)
            ++ (match e with IdleTimeout => plainIdleEvents final | _ => [] end)
      ∧ late ts = (match e with
                   | ReadFailure _ => plainIdleEvents final
                   | _ => []
                   end)
      ∧ r = (match e with
             | EndOfBody => Normal final
             | IdleTimeout => Throw AbortError
             | ReadFailure err => Throw err
             end)
  end.
Proof.
  destruct body as [reader|].
  - apply (plain_readLoop_run reader newTextDecoder "" n).
  - cbn [Stream.readAll bodyRun]. eff_unfold. cbn.
    by rewrite decide_False by naive_solver.
Qed.

Lemma plain_requestChatStream_closed req onController res :
  ok res = true →
  Stream.requestChatStream req onController (Responds res)
  = Fetch req
    :: (if onController then [OnController] else [])
    ++ ((λ t, OnMessage t false None None) <$> (bodyRun (body res)).1.1)
    ++ ending (plainIdleEvents (bodyRun (body res)).1.2) (bodyRun (body res)).2.
Proof.
  intros Hok.
  pose proof (plain_readAll_run (body res) 1) as Hrun.
  rewrite (PlainStreamTheory.plain_requestChatStream_ok _ _ _ Hok).
  destruct (bodyRun (body res)) as [[texts final] e].
  destruct (Stream.readAll (body res) (idle 1)) as [[evs ts] r].
  destruct Hrun as (-> & -> & ->).
  destruct e as [| |err]; cbn [ending fst snd];
    rewrite ?app_nil_r, <- ?app_assoc; reflexivity.
Qed.

End WithDecoder.
End PlainClosedForm.

(** X23.  The whole trace of [requestChatStream] (part_003) for a
    successful response: the fetch; the controller handed to the caller,
    if the callback was passed; one intermediate [onMessage] per text
    accumulated; then the end.  At the end of the body [finish] reports the
    final text and aborts.  On an idle timeout [finish] does so and the
    error follows; on a failing read the error comes first and the actions
    of [finish] follow, from the timer that was left armed. *)
Theorem requestChatStream_trace_of_success :
  ∀ (K : Constant) (T : Tiktoken) (D : TextDecoder) (stores : Stores)
    (messages : list Message) (overrideModel : option string)
    (onController : bool) (res : Response),
    ok res = true →
    let nP := length (encode (String.concat newline (content <$> messages))) in
    let '(texts, final, e) := bodyRun (body res) in
    Part003.requestChatStream stores messages overrideModel onController
      (Responds res)
    = Fetch (Part003.makeRequestParam stores messages
               (Some (streamOptions overrideModel)))
      :: (if onController then [OnController] else [])
      ++ (partial nP <$> texts)
      ++ ending (idleEvents nP final) e.
Proof.
  intros K T D stores messages overrideModel onController res Hok nP.
  pose proof (StreamTrace.requestChatStream_closed stores messages
                overrideModel onController res Hok) as Hclosed.
  cbn zeta in Hclosed. fold nP in Hclosed.
  by destruct (bodyRun (body res)) as [[texts final] e].
Qed.

Lemma requestChatStream_trace_of_success_witness :
  @Part003.requestChatStream exampleConstant exampleTiktoken asciiDecoder
    exampleStores [] None true abortedAfterHel
  = [ Fetch (@Part003.makeRequestParam exampleConstant exampleStores []
               (Some (streamOptions None)));
      OnController;
      OnMessage "Hel" false (Some 0) None;
      OnError AbortError None;
      OnMessage "Hel" true (Some 0) (Some 3);
      Abort ].
Proof.
  exact (requestChatStream_trace_of_success exampleConstant exampleTiktoken
           asciiDecoder exampleStores [] None true
           {| status := 200;
              body := Some (Read (chunk "Hel") (ReadRejects AbortError)) |}
           eq_refl).
Defined.

(** X24.  The callbacks of [requestChatStream] (part_003) for a successful
    response, whatever the body does: [onMessage] gets every accumulated
    text with [done = false] and then, exactly once, the last of them (the
    empty text when there was none) with [done = true]; [onError] is not
    called when the body ends, and is called once, without a status code,
    when a read fails or nothing arrives for [TIME_OUT_MS]. *)
Theorem requestChatStream_callbacks_of_success :
  ∀ (K : Constant) (T : Tiktoken) (D : TextDecoder) (stores : Stores)
    (messages : list Message) (overrideModel : option string)
    (onController : bool) (res : Response),
    ok res = true →
    let tr := Part003.requestChatStream stores messages overrideModel
                onController (Responds res) in
    let texts := (bodyRun (body res)).1.1 in
    onMessage_calls tr
    = ((λ t, (t, false)) <$> texts) ++ [ (default "" (last texts), true) ]
    ∧ onError_calls tr
      = match (bodyRun (body res)).2 with
        | EndOfBody => []
        | IdleTimeout => [ (AbortError, None) ]
        | ReadFailure err => [ (err, None) ]
        end.
Proof.
  intros K T D stores messages overrideModel onController res Hok tr texts.
  split.
  - apply (StreamTrace.requestChatStream_messages _ _ _ _ _ Hok).
  - apply (StreamTrace.requestChatStream_errors _ _ _ _ _ Hok).
Qed.

Lemma requestChatStream_callbacks_of_success_witness :
  onMessage_calls
    (@Part003.requestChatStream exampleConstant exampleTiktoken asciiDecoder
       exampleStores [] None false stalledAfterHel)
  = [ ("Hel", false); ("Hel", true) ]
  ∧ onError_calls
      (@Part003.requestChatStream exampleConstant exampleTiktoken asciiDecoder
         exampleStores [] None false stalledAfterHel)
    = [ (AbortError, None) ].
Proof.
  exact (requestChatStream_callbacks_of_success exampleConstant
           exampleTiktoken asciiDecoder exampleStores [] None false
           {| status := 200; body := Some (Read (chunk "Hel") ReadStalls) |}
           eq_refl).
Defined.

(** X25.  A successful response that delivers any number of chunks and
    then the end of the stream: [onMessage] is called once per chunk with
    the text accumulated so far, and once more with the whole text and
    [done = true]; [onError] is not called, the trace ends with the abort
    of [finish], and what would follow the end of the stream is never
    read. *)
Theorem requestChatStream_chunks_then_end :
  ∀ (K : Constant) (T : Tiktoken) (D : TextDecoder) (stores : Stores)
    (messages : list Message) (overrideModel : option string)
    (onController : bool) (res : Response) (chunks : list (list Byte.byte))
    (rest : BodyScript),
    ok res = true →
    body res = Some (bodyOfChunks chunks rest) →
    let tr := Part003.requestChatStream stores messages overrideModel
                onController (Responds res) in
    let texts := runningTexts newTextDecoder "" chunks in
    onMessage_calls tr
    = ((λ t, (t, false)) <$> texts) ++ [ (default "" (last texts), true) ]
    ∧ length (onMessage_calls tr) = S (length chunks)
    ∧ onError_calls tr = []
    ∧ last tr = Some Abort.
Proof.
  intros K T D stores messages overrideModel onController res chunks rest
    Hok Hbody tr texts.
  assert (bodyRun (body res)
          = (texts, default "" (last texts), EndOfBody)) as Hrun.
  { rewrite Hbody. apply loopRun_chunks. }
  assert (length texts = length chunks) as Hlen.
  { apply runningTexts_length. }
  assert (onMessage_calls tr
          = ((λ t, (t, false)) <$> texts)
            ++ [ (default "" (last texts), true) ]) as Hcalls.
  { subst tr. rewrite (StreamTrace.requestChatStream_messages _ _ _ _ _ Hok).
    by rewrite Hrun. }
  split; [exact Hcalls|]. split.
  { rewrite Hcalls, length_app, length_fmap, Hlen. cbn. lia. }
  split.
  - subst tr. rewrite (StreamTrace.requestChatStream_errors _ _ _ _ _ Hok).
    by rewrite Hrun.
  - subst tr. rewrite (StreamTrace.requestChatStream_closed _ _ _ _ _ Hok).
    cbn zeta. rewrite Hrun. cbn [fst snd ending idleEvents].
    unfold idleEvents.
    change [?a; Abort] with ([a] ++ [Abort]).
    rewrite app_comm_cons, !app_assoc.
    apply last_snoc.
Qed.

Lemma requestChatStream_chunks_then_end_witness :
  onMessage_calls
    (@Part003.requestChatStream exampleConstant exampleTiktoken asciiDecoder
       exampleStores [] None true
       (Responds {| status := 200;
                    body := Some (bodyOfChunks
                      [ String.list_byte_of_string "a";
                        String.list_byte_of_string "b";
                        String.list_byte_of_string "c" ]
                      (ReadRejects AbortError)) |}))
  = [ ("a", false); ("ab", false); ("abc", false); ("abc", true) ].
Proof.
  exact (proj1 (requestChatStream_chunks_then_end exampleConstant
                  exampleTiktoken asciiDecoder exampleStores [] None true
                  {| status := 200;
                     body := Some (bodyOfChunks
                       [ String.list_byte_of_string "a";
                         String.list_byte_of_string "b";
                         String.list_byte_of_string "c" ]
                       (ReadRejects AbortError)) |}
                  [ String.list_byte_of_string "a";
                    String.list_byte_of_string "b";
                    String.list_byte_of_string "c" ]
                  (ReadRejects AbortError) eq_refl eq_refl)).
Defined.

(** X26.  The token counts of part_003: whatever the network does, every
    [onMessage] call carries the token count of the prompt (the contents
    of the messages joined by newlines); the calls with [done = false]
    carry no completion count, and a call with [done = true] carries the
    token count of the very text it reports. *)
Theorem requestChatStream_token_counts :
  ∀ (K : Constant) (T : Tiktoken) (D : TextDecoder) (stores : Stores)
    (messages : list Message) (overrideModel : option string)
    (onController : bool) (net : FetchOutcome),
    Forall
      (token_counts_ok
         (length (encode (String.concat newline (content <$> messages)))))
      (Part003.requestChatStream stores messages overrideModel onController
         net).
Proof.
  intros K T D stores messages overrideModel onController net.
  destruct net as [res|e|].
  - destruct (ok res) eqn:Hok.
    + rewrite (StreamTrace.requestChatStream_closed _ _ _ _ _ Hok).
      cbn zeta. set (nP := length (encode _)).
      constructor; [done|]. rewrite !Forall_app. split; [|split].
      * destruct onController; repeat constructor.
      * apply Forall_fmap, Forall_true. by intros t.
      * destruct (bodyRun (body res)).2; repeat constructor.
    + rewrite (StreamTheory.requestChatStream_not_ok _ _ _ _ _ Hok).
      repeat constructor.
  - repeat constructor.
  - repeat constructor.
Qed.

(** X27.  When no successful response arrives (the status is outside
    200-299, the fetch rejects, or it is still pending when the request
    timer aborts it), [requestChatStream] (part_003) calls [onError]
    exactly once and neither [onMessage] nor [onController]; the status
    code is passed exactly when a response arrived, and only the status
    401 is reported as [Unauthorized]. *)
Theorem requestChatStream_without_success :
  ∀ (K : Constant) (T : Tiktoken) (D : TextDecoder) (stores : Stores)
    (messages : list Message) (overrideModel : option string)
    (onController : bool) (net : FetchOutcome),
    match net with Responds res => ok res = false | _ => True end →
    let tr := Part003.requestChatStream stores messages overrideModel
                onController net in
    onMessage_calls tr = []
    ∧ (OnController ∉ tr)
    ∧ onError_calls tr
      = [ match net with
          | Responds res =>
              (NewError (if bool_decide (status res = 401)
                         then "Unauthorized" else "Stream Error"),
               Some (status res))
          | FetchRejects e => (e, None)
          | FetchStalls => (AbortError, None)
          end ].
Proof.
  intros K T D stores messages overrideModel onController net Hnet tr.
  subst tr. destruct net as [res|e|].
  - rewrite (StreamTheory.requestChatStream_not_ok _ _ _ _ _ Hnet).
    repeat split. intros Hin. apply list_elem_of_In in Hin.
    cbn in Hin. intuition discriminate.
  - rewrite StreamTrace.requestChatStream_fetch_rejects.
    repeat split. intros Hin. apply list_elem_of_In in Hin.
    cbn in Hin. intuition discriminate.
  - rewrite StreamTrace.requestChatStream_fetch_stalls.
    repeat split. intros Hin. apply list_elem_of_In in Hin.
    cbn in Hin. intuition discriminate.
Qed.

Lemma requestChatStream_without_success_witness :
  onError_calls
    (@Part003.requestChatStream exampleConstant exampleTiktoken asciiDecoder
       exampleStores [] None true
       (Responds {| status := 500; body := Some ReadStalls |}))
  = [ (NewError "Stream Error", Some 500) ].
Proof.
  exact (proj2 (proj2 (requestChatStream_without_success exampleConstant
           exampleTiktoken asciiDecoder exampleStores [] None true
           (Responds {| status := 500; body := Some ReadStalls |})
           eq_refl))).
Defined.

(** X28.  The stream of part_000 and the stream of part_003 make the same
    calls in the same order, whatever the network does: the trace of
    part_000 is the trace of part_003 with the token counts left out. *)
Theorem part000_stream_is_part003_without_tokens :
  ∀ (K : Constant) (T : Tiktoken) (D : TextDecoder) (stores : Stores)
    (messages : list Message) (overrideModel : option string)
    (onController : bool) (net : FetchOutcome),
    Part000.requestChatStream stores messages overrideModel onController net
    = withoutTokens
        <$> Part003.requestChatStream stores messages overrideModel
              onController net.
Proof.
  intros K T D stores messages overrideModel onController net.
  unfold Part000.requestChatStream.
  destruct net as [res|e|]; [|reflexivity..].
  destruct (ok res) eqn:Hok.
  - rewrite (StreamTrace.requestChatStream_closed _ _ _ _ _ Hok).
    rewrite (PlainClosedForm.plain_requestChatStream_closed _ _ _ Hok).
    cbn zeta. rewrite fmap_cons, !fmap_app, <- list_fmap_compose.
    f_equal. f_equal; [by destruct onController|]. f_equal.
    by destruct (bodyRun (body res)).2.
  - rewrite (StreamTheory.requestChatStream_not_ok _ _ _ _ _ Hok).
    by rewrite (PlainStreamTheory.plain_requestChatStream_not_ok _ _ _ Hok).
Qed.
